(** * SPECFEM2D solver interface of seisflows: model and verification

    Shallow embedding of [seisflows/solver/specfem2d.py] (class [specfem2d]
    and the module-level function [loadbyproc]).

    - Floating-point values are modelled by rationals [Q]; comparisons,
      minima and maxima are exact on floats as they are here, products and
      quotients are taken without rounding.
    - A numeric text file is represented by its data rows, each value being
      the number its numeral denotes. [np.savetxt] with '%16.10e' keeps
      eleven significant digits of every value: the file holds the values
      so rounded ([fmt_16_10e]).
    - Python exceptions are an error result; side effects are threaded
      through an explicit [world]. *)

From Stdlib Require Import QArith Qminmax Qround Qabs Qpower Lqa DecimalString.
From Stdlib Require DecimalNat.
From stdpp Require Import gmap strings list.

Set Default Proof Using "Type".

(** ** Python values *)

(** A numpy 1-D float array. *)
Abbreviation array := (list Q).

(** A numeric table: the rows of a text file, or a 2-D array. *)
Abbreviation table := (list (list Q)).

(** The model or kernel dictionary: parameter name to a list holding the
    array of nodal values ([model[key] = [M[:,ioff]]]). *)
Abbreviation pydict := (gmap string (list array)).

(** The numeric files of the file system, by path. *)
Abbreviation files := (gmap string table).

(** What [np.loadtxt] returns: axes of length one are squeezed away
    (ndmin=0), so a file of one row or one column yields a 1-D array and a
    file of a single number a 0-d array. *)
Inductive ndarray : Type :=
  | Arr0 (v : Q)
  | Arr1 (a : array)
  | Arr2 (rows : table).

Inductive exn : Type :=
  | IOError (filename : string)
  | IndexError
  | KeyError (key : string)
  | ValueError
  | TypeError
  | Exception (msg : string).

Inductive result (A : Type) : Type :=
  | Ok (a : A)
  | Raise (e : exn).
Arguments Ok {A} a.
Arguments Raise {A} e.

(** ** The world outside the interpreter *)

(** [subprocess.call] with a shell command line or with an argument vector. *)
Inductive command : Type :=
  | Shell (script : string)
  | Argv (args : list string).

(** The commands of [seisflows.tools.unix] used by the solver class. *)
Inductive unix_cmd : Type :=
  | rm (path : string)
  | ln (src dst : string)
  | cp (src dst : string)
  | mv (src dst : string).

(** External effects, in the order they happen. *)
Inductive event : Type :=
  | Setpar (key val : string)
  | Open (filename mode : string)
  | Subprocess (cmd : command) (stdout : option string) (returncode : Z)
  | Unix (cmd : unix_cmd)
  | Savetxt (filename : string) (fmt : string).

Record world : Type := World {
  disk : files;                    (* numeric files by path *)
  getnode : Z;                     (* system.getnode() *)
  getpath : string;                (* self.getpath *)
  MODEL_INIT : string;             (* PATH.MODEL_INIT *)
  ls : string → list string;       (* unix.ls: entries of a directory *)
  log : list event;                (* effects so far, oldest first *)
}.

Definition set_disk (f : files → files) (w : world) : world :=
  World (f (disk w)) (getnode w) (getpath w) (MODEL_INIT w) (ls w) (log w).

Definition emit (e : event) (w : world) : world :=
  World (disk w) (getnode w) (getpath w) (MODEL_INIT w) (ls w) (log w ++ [e]).

(** The events a call added to the log of [w], given the world [w'] it
    ended in. *)
Definition performed (w w' : world) : list event :=
  drop (length (log w)) (log w').

(** ** A state and exception monad *)

Definition py (A : Type) : Type := world → result A * world.

Definition ret {A} (a : A) : py A := λ w, (Ok a, w).

Definition raise {A} (e : exn) : py A := λ w, (Raise e, w).

Definition bind {A B} (m : py A) (k : A → py B) : py B :=
  λ w, match m w with
       | (Ok a, w') => k a w'
       | (Raise e, w') => (Raise e, w')
       end.

Definition get_world : py world := λ w, (Ok w, w).

Definition effect (e : event) (f : files → files) : py unit :=
  λ w, (Ok tt, emit e (set_disk f w)).

Declare Scope py_scope.
Delimit Scope py_scope with py.
Notation "x <- c1 ;; c2" := (bind c1 (λ x, c2))
  (at level 20, c1 at level 99, c2 at level 200, only parsing) : py_scope.
Notation "' pat <- c1 ;; c2" := (bind c1 (λ x, match x with pat => c2 end))
  (at level 20, pat pattern, c1 at level 99, c2 at level 200, only parsing) : py_scope.
Notation "c1 >> c2" := (bind c1 (λ _, c2))
  (at level 100, c2 at level 200, right associativity, only parsing) : py_scope.
Local Open Scope py_scope.

(** [for x in xs: s = body(s, x)] *)
Fixpoint for_each {A S} (xs : list A) (body : S → A → py S) (s : S) : py S :=
  match xs with
  | [] => ret s
  | x :: xs' => s' <- body s x ;; for_each xs' body s'
  end.

(** ** numpy *)

Definition table_ncol (rows : table) : nat :=
  match rows with
  | [] => 0
  | r :: _ => length r
  end.

Definition rectangular (rows : table) : bool :=
  forallb (λ r, Nat.eqb (length r) (table_ncol rows)) rows.

Definition squeeze (rows : table) : ndarray :=
  match rows with
  | [] => Arr1 []
  | [r] => match r with [v] => Arr0 v | _ => Arr1 r end
  | _ :: _ :: _ =>
      if Nat.eqb (table_ncol rows) 1 then Arr1 (concat rows) else Arr2 rows
  end.

(** [np.loadtxt(filename)]: a missing file and rows of unequal length
    raise. *)
Definition np_loadtxt (filename : string) : py ndarray :=
  w <- get_world ;;
  match disk w !! filename with
  | None => raise (IOError filename)
  | Some rows =>
      if rectangular rows then ret (squeeze rows) else raise ValueError
  end.

(** The tables [np.loadtxt] returns as a 2-D array: at least two rows and
    two columns. *)
Definition is_2d (rows : table) : bool :=
  rectangular rows && (2 <=? length rows) && (2 <=? table_ncol rows).

(** [M.shape] *)
Definition shape (a : ndarray) : list nat :=
  match a with
  | Arr0 _ => []
  | Arr1 a => [length a]
  | Arr2 rows => [length rows; table_ncol rows]
  end.

(** [t[i]] on a tuple or list. *)
Definition getitem {A} (t : list A) (i : nat) : py A :=
  match t !! i with
  | Some v => ret v
  | None => raise IndexError
  end.

(** [rows[:, j]] on the rows of a 2-D array. *)
Definition column (j : nat) (rows : table) : option array :=
  mapM (λ r : array, r !! j) rows.

(** [M[:, j]] *)
Definition getcol (a : ndarray) (j : nat) : py array :=
  match a with
  | Arr2 rows =>
      match column j rows with
      | Some c => ret c
      | None => raise IndexError
      end
  | _ => raise IndexError
  end.

(** [np.zeros((nrow, ncol))] *)
Definition np_zeros (nrow ncol : nat) : table :=
  replicate nrow (replicate ncol 0%Q).

(** [M[:, j] = a] with numpy's broadcasting: [a] has one value per row, or
    a single value used for every row. *)
Definition setcol (rows : table) (j : nat) (a : array) : py table :=
  if negb (j <? table_ncol rows) && negb (Nat.eqb (length rows) 0)
  then raise IndexError
  else if Nat.eqb (length a) (length rows)
  then ret (zip_with (λ (r : array) v, <[j := v]> r) rows a)
  else match a with
       | [v] => ret (map (λ r : array, <[j := v]> r) rows)
       | _ => raise ValueError
       end.

(** [a.min()] and [a.max()]; both raise on an empty array. *)
Definition np_min (a : array) : py Q :=
  match a with
  | [] => raise ValueError
  | v :: a' => ret (fold_left Qmin a' v)
  end.

Definition np_max (a : array) : py Q :=
  match a with
  | [] => raise ValueError
  | v :: a' => ret (fold_left Qmax a' v)
  end.

(** [np.clip(a, a_min, a_max)] on a float array, as the numpy of this
    Python 2 code (1.16 and before) computes it, one value at a time: a
    value below [a_min] becomes [a_min], else a value above [a_max] becomes
    [a_max]. The bounds are not compared with each other. *)
Definition np_clip (a : array) (a_min a_max : Q) : array :=
  map (λ v, if negb (Qle_bool a_min v) then a_min
            else if negb (Qle_bool v a_max) then a_max
            else v) a.

(** *** Printing with ['%16.10e'] *)

(** The nearest integer, a tie going to the even one. *)
Definition round_half_even (q : Q) : Z :=
  let f := Qfloor q in
  match (q - inject_Z f ?= 1 # 2)%Q with
  | Lt => f
  | Gt => (f + 1)%Z
  | Eq => if Z.even f then f else (f + 1)%Z
  end.

(** From an exponent [e] with [10^e <= q], upwards while [10^(e+1) <= q]. *)
Fixpoint exponent_above (fuel : nat) (e : Z) (q : Q) : Z :=
  match fuel with
  | O => e
  | S fuel =>
      if Qle_bool (10 ^ (e + 1)) q then exponent_above fuel (e + 1)%Z q else e
  end.

(** The decimal exponent [e] of a positive [q]: [10^e <= q < 10^(e+1)]. It
    lies between minus the bit length of the denominator and the bit length
    of the numerator. *)
Definition decimal_exponent (q : Q) : Z :=
  let lo := (- (Z.log2 (Zpos (Qden q)) + 1))%Z in
  let hi := (Z.log2 (Qnum q) + 1)%Z in
  exponent_above (Z.to_nat (hi - lo)) lo q.

(** The number denoted by ['%16.10e' % v]: one digit before the point and
    ten after it, that is [v] rounded to eleven significant digits. The
    width 16 only pads the numeral. *)
Definition fmt_16_10e (v : Q) : Q :=
  if Qeq_bool v 0 then 0
  else
    let e := decimal_exponent (Qabs v) in
    let m := round_half_even (Qabs v * 10 ^ (10 - e)) in
    Qred ((if Qle_bool 0 v then 1 else -1) * inject_Z m * 10 ^ (e - 10)).

(** The rows of the file [np.savetxt(filename, M, '%16.10e')] writes. *)
Definition printed (rows : table) : table :=
  map (map fmt_16_10e) rows.

(** [np.savetxt(filename, M, fmt)] with ['%16.10e'], the one format of this
    class. *)
Definition np_savetxt (filename : string) (rows : table) (fmt : string) : py unit :=
  effect (Savetxt filename fmt) (<[filename := printed rows]>).

(** ** Python built-ins *)

(** [str(n)] for a length. *)
Definition str (n : nat) : string :=
  NilZero.string_of_uint (Nat.to_uint n).

(** [model[key]] *)
Definition dict_get (model : pydict) (key : string) : py (list array) :=
  match model !! key with
  | Some v => ret v
  | None => raise (KeyError key)
  end.

(** [model.keys()]: the order of a dict's keys is an implementation detail
    of the interpreter; the order of the map's enumeration stands for it. *)
Definition keys (model : pydict) : list string :=
  (map_to_list model).*1.

(** [l.pop()] as an expression: the last element. *)
Definition pop {A} (l : list A) : py A :=
  match last l with
  | Some v => ret v
  | None => raise IndexError
  end.

(** [os.path.join(a, b)] *)
Definition join (a b : string) : string :=
  if String.prefix "/" b then b
  else if decide (a = "") then b
  else if String.prefix "/" (String.rev a) then a +:+ b
  else a +:+ "/" +:+ b.

(** [enumerate(xs)] *)
Definition enumerate {A} (xs : list A) : list (nat * A) :=
  zip (seq 0 (length xs)) xs.

(** ** Vocabulary of the statements *)

(** A table of [n] rows of [m] values each. *)
Definition has_shape (n m : nat) (rows : table) : Prop :=
  length rows = n ∧ Forall (λ r : array, length r = m) rows.

(** The dictionary [load] builds from the five columns. *)
Definition fields_of (x z rho vp vs : array) : pydict :=
  <["vs" := [vs]]> (<["vp" := [vp]]> (<["rho" := [rho]]>
    (<["z" := [z]]> (<["x" := [x]]> ∅)))).

(** [x.max() - x.min()] of a non-empty array. *)
Definition extent (a : array) : Q :=
  match a with
  | [] => 0
  | v :: a' => fold_left Qmax a' v - fold_left Qmin a' v
  end.

(** The position of a field among the five data columns. *)
Definition field_index (key : string) : option nat :=
  if decide (key = "x") then Some 0
  else if decide (key = "z") then Some 1
  else if decide (key = "rho") then Some 2
  else if decide (key = "vp") then Some 3
  else if decide (key = "vs") then Some 4
  else None.

(** Every value of [a'] lies in [[lo, hi]], and a value of [a] already in
    that interval is kept. *)
Definition clamped_into (lo hi : Q) (a a' : array) : Prop :=
  Forall2 (λ v v', (lo <= v' ∧ v' <= hi) ∧ (lo <= v ∧ v <= hi → v' = v))%Q a a'.

(** A computation that leaves the world as it found it. *)
Definition read_only {A} (m : py A) : Prop := ∀ w, (m w).2 = w.

(** Half a unit of the eleventh significant digit, relative to the value:
    what ['%16.10e'] can change. *)
Definition tolerance_16_10e : Q := 5 # 100000000000.

(** Every value of [a'] is within the relative tolerance [tol] of the
    value of [a] at its place. *)
Definition agree_within (tol : Q) (a a' : array) : Prop :=
  Forall2 (λ v v', Qabs (v' - v) <= tol * Qabs v)%Q a a'.

(** Column [j] of the table [M] handed to [np.savetxt] is [a]; the file
    written holds there the values of [a] as ['%16.10e'] prints them, each
    within the tolerance of the format. *)
Definition written_column (j : nat) (M : table) (a : array) : Prop :=
  column j M = Some a ∧
  column j (printed M) = Some (map fmt_16_10e a) ∧
  agree_within tolerance_16_10e a (map fmt_16_10e a).

(** ** Example data *)

(** Modelled from the spec: [seisflows.tools.unix] is not part of the source
    tree. On single numeric files [cp] copies, [mv] renames and [rm]
    removes; [ln] makes a link to a directory and touches no numeric
    file. *)
Definition unix_flat (c : unix_cmd) (d : files) : files :=
  match c with
  | rm path => delete path d
  | ln _ _ => d
  | cp src dst =>
      match d !! src with Some t => <[dst := t]> d | None => d end
  | mv src dst =>
      match d !! src with Some t => <[dst := t]> (delete src d) | None => d end
  end.

(** An operating system on which every command exits with status 1 and
    writes nothing. *)
Definition os_failing (c : command) (d : files) : Z * files := (1%Z, d).

(** A smoother that returns the field as it is. *)
Definition meshsmooth_none (x z v : array) (span nx nz : Q) : array := v.

(** A kernel of three nodes: columns x, z, rho, vp, vs. *)
Definition kernel_table : table :=
  [[0; 0; 1; 2; -10]; [1; 0; 1; 2; 3]; [2; 5; 1; 2; 10]]%Q.

(** An initial model of three nodes: columns id, x, z, rho, vp, vs. *)
Definition model_table : table :=
  [[1; 0; 0; 2600; 5800; 3500]; [2; 1; 0; 2700; 5900; 3600];
   [3; 2; 5; 2800; 6000; 3700]]%Q.

(** A table of three columns. *)
Definition short_table : table := [[0; 0; 1]; [1; 0; 1]]%Q.

Definition example_disk : files :=
  {[ "kernels/gradient" := kernel_table;
     "model_init" := model_table;
     "short" := short_table ]}.

(** The world of worker 3, and the same world for worker 0. *)
Definition w_worker : world :=
  World example_disk 3 "/scratch/solver/000003" "model_init"
        (λ _, ["000000"; "000001"]) [].

Definition w_coordinator : world :=
  World example_disk 0 "/scratch/solver/000000" "model_init"
        (λ _, ["000000"; "000001"]) [].

(** A kernel of a single node, a file of a single column, and a kernel
    whose first x has fifteen significant digits. *)
Definition one_row_table : table := [[0; 0; 1; 2; 3]%Q].

Definition one_column_table : table := [[1]; [2]; [3]]%Q.

Definition fine_table : table :=
  [[123456789012345 # 1000000000000000; 0; 1; 2; -10];
   [1; 0; 1; 2; 3]; [2; 5; 1; 2; 10]]%Q.

Definition w_odd : world :=
  World {[ "kernels/gradient" := fine_table;
           "kernels/single" := one_row_table;
           "kernels/column" := one_column_table ]}
        3 "/scratch/solver/000003" "model_init" (λ _, []) [].

(** ** The solver class *)

Section specfem2d.

(** The operating system running a command to completion: its exit status
    and what it did to the numeric files. *)
Variable subprocess_call : command → files → Z * files.

(** What a command of [seisflows.tools.unix] does to the numeric files. *)
Variable unix_run : unix_cmd → files → files.

(** [seisflows.tools.array.meshsmooth(x, z, v, span, nx, nz)] *)
Variable meshsmooth : array → array → array → Q → Q → Q → array.

(** [np.sqrt] and [np.around] on a scalar. *)
Variables np_sqrt np_around : Q → Q.

(** [setpar(key, val)] of [seisflows.seistools.shared] patches the solver's
    parameter file, which is not a numeric table. *)
Definition setpar (key val : string) : py unit :=
  effect (Setpar key val) id.

Definition unix (c : unix_cmd) : py unit :=
  effect (Unix c) (unix_run c).

(** [open(filename, mode)] *)
Definition open (filename mode : string) : py string :=
  effect (Open filename mode) id >> ret filename.

(** [subprocess.call(cmd, stdout=f)] waits for the command and returns
    its exit status. *)
Definition subprocess_call_ (cmd : command) (stdout : option string) : py Z :=
  λ w, let '(returncode, d) := subprocess_call cmd (disk w) in
       (Ok returncode, emit (Subprocess cmd stdout returncode) (set_disk (λ _, d) w)).

Definition parameters : list string := [] ++ ["vs"].

(** *** utility functions *)

Definition mpirun (script output : string) : py unit :=
  f <- open output "w" ;;
  subprocess_call_ (Shell script) (Some f) >>
  ret tt.

(** *** low-level solver interface *)

Definition forward : py unit :=
  setpar "SIMULATION_TYPE" "1" >>
  setpar "SAVE_FORWARD" ".true." >>
  mpirun "bin/xmeshfem2D" "/dev/null" >>
  mpirun "bin/xspecfem2D" "/dev/null".

Definition adjoint : py unit :=
  setpar "SIMULATION_TYPE" "3" >>
  setpar "SAVE_FORWARD" ".false." >>
  unix (rm "SEM") >>
  unix (ln "traces/adj" "SEM") >>
  mpirun "bin/xmeshfem2D" "/dev/null" >>
  mpirun "bin/xspecfem2D" "/dev/null".

(** *** model input/output *)

(** The column offset chosen from the column count. *)
Definition column_offset (ncol : nat) : py nat :=
  if Nat.eqb ncol 5 then ret 0
  else if Nat.eqb ncol 6 then ret 1
  else raise (Exception "Bad SPECFEM2D model or kernel.").

Definition load (filename : string) : py pydict :=
  (* read text file *)
  M <- np_loadtxt filename ;;
  nrow <- getitem (shape M) 0 ;;
  ncol <- getitem (shape M) 1 ;;
  ioff <- column_offset ncol ;;
  (* fill in dictionary *)
  '(model, _) <- for_each ["x"; "z"; "rho"; "vp"; "vs"]
    (λ '(model, ioff) key,
       c <- getcol M ioff ;;
       ret (<[key := [c]]> model, ioff + 1))
    (∅, ioff) ;;
  ret model.

(** [loadbyproc(filename, key)]; a key that is none of the five falls
    through and gives Python's [None]. *)
Definition loadbyproc (filename key : string) : py (option array) :=
  (* read text file *)
  M <- np_loadtxt filename ;;
  nrow <- getitem (shape M) 0 ;;
  ncol <- getitem (shape M) 1 ;;
  ioff <- column_offset ncol ;;
  if decide (key = "x") then c <- getcol M (ioff + 0) ;; ret (Some c)
  else if decide (key = "z") then c <- getcol M (ioff + 1) ;; ret (Some c)
  else if decide (key = "rho") then c <- getcol M (ioff + 2) ;; ret (Some c)
  else if decide (key = "vp") then c <- getcol M (ioff + 3) ;; ret (Some c)
  else if decide (key = "vs") then c <- getcol M (ioff + 4) ;; ret (Some c)
  else ret None.

(** [len(model[model.keys().pop()][0])] *)
Definition save_nrow (model : pydict) : py nat :=
  key <- pop (keys model) ;;
  v <- dict_get model key ;;
  a <- getitem v 0 ;;
  ret (length a).

(** The body of the loop of [save] that fills column [icol+ioff] of [M]
    from the dictionary, or from the initial model when the dictionary
    lacks the key. *)
Definition save_column (model : pydict) (ioff : nat) (M : table)
    (item : nat * string) : py table :=
  let '(icol, key) := item in
  if decide (key ∈ keys model) then
    v <- dict_get model key ;;
    a <- getitem v 0 ;;
    setcol M (icol + ioff) a
  else
    w <- get_world ;;
    c <- loadbyproc (MODEL_INIT w) key ;;
    match c with
    | Some c => setcol M (icol + ioff) c
    | None => raise TypeError (* not reached: all five keys are served *)
    end.

Definition save (filename : string) (model : pydict) (type : string) : py unit :=
  (* allocate array *)
  '(ioff, M) <-
    (if decide (type = "model") then
       nrow <- save_nrow model ;;
       let ncol := 6 in
       let ioff := 1 in
       ret (ioff, np_zeros nrow ncol)
     else if decide (type = "kernel") then
       nrow <- save_nrow model ;;
       let ncol := 5 in
       let ioff := 0 in
       ret (ioff, np_zeros nrow ncol)
     else raise ValueError) ;;
  (* fill in array *)
  M <- for_each (enumerate ["x"; "z"; "rho"; "vp"; "vs"])
         (save_column model ioff) M ;;
  (* write array *)
  np_savetxt filename M "%16.10e".

(** *** postprocessing utilities *)

Definition combine (path : string) : py unit :=
  w <- get_world ;;
  subprocess_call_
    (Argv ([getpath w +:+ "/" +:+ "bin/xsmooth_sem"] ++
           [str (length (ls w path))] ++
           [path])) None >>
  ret tt.

(** The grid set up by [smooth] from the coordinates: [(nx, nz)]. *)
Definition smooth_grid (x z : array) : py (Q * Q) :=
  xmax <- np_max x ;;
  xmin <- np_min x ;;
  let lx := (xmax - xmin)%Q in
  zmax <- np_max z ;;
  zmin <- np_min z ;;
  let lz := (zmax - zmin)%Q in
  let nn := inject_Z (Z.of_nat (length x)) in
  let nx := np_around (np_sqrt (nn * lx / lz)%Q) in
  let nz := np_around (np_sqrt (nn * lx / lz)%Q) in
  ret (nx, nz).

(** [smooth] returns the loaded dictionary for a zero span, Python's
    [None] otherwise. *)
Definition smooth (path tag : string) (span : Q) : py (option pydict) :=
  parts <- load (path +:+ "/" +:+ tag) ;;
  if Qeq_bool span 0 then ret (Some parts) else
  (* set up grid *)
  x <- (v <- dict_get parts "x" ;; getitem v 0) ;;
  z <- (v <- dict_get parts "z" ;; getitem v 0) ;;
  '(nx, nz) <- smooth_grid x z ;;
  (* perform smoothing *)
  parts <- for_each parameters
    (λ parts key,
       v <- dict_get parts key ;;
       a <- getitem v 0 ;;
       ret (<[key := [meshsmooth x z a span nx nz]]> parts))
    parts ;;
  unix (mv (path +:+ "/" +:+ tag) (path +:+ "/" +:+ "_nosmooth")) >>
  save (path +:+ "/" +:+ tag) parts "model" >>
  ret None.

(** [clip] returns the loaded dictionary for [thresh >= 1], Python's
    [None] otherwise. [np.clip] writes into the array it reads
    ([out=parts[key][0]]), a view of one column of the loaded table, so
    the other entries of the dictionary are not touched. *)
Definition clip (path tag : string) (thresh : Q) : py (option pydict) :=
  parts <- load (path +:+ "/" +:+ tag) ;;
  if Qle_bool 1 thresh then ret (Some parts) else
  parts <- for_each parameters
    (λ parts key,
       v <- dict_get parts key ;;
       a <- getitem v 0 ;;
       minval <- np_min a ;;
       maxval <- np_max a ;;
       ret (<[key := <[0 := np_clip a (thresh * minval) (thresh * maxval)]> v]> parts))
    parts ;;
  unix (mv (path +:+ "/" +:+ tag) (path +:+ "/" +:+ "_noclip")) >>
  save (path +:+ "/" +:+ tag) parts "model" >>
  ret None.

(** *** file transfer utilities *)

Definition export_model (path : string) : py unit :=
  w <- get_world ;;
  if Z.eqb (getnode w) 0 then
    let src := join (getpath w) "DATA/model_velocity.dat_input" in
    let dst := path in
    unix (cp src dst)
  else ret tt.

(** *** Vocabulary of the statements about the class *)

(** Where [save] takes the column of [key] from: the dictionary, or the
    initial model when the dictionary lacks the key. *)
Definition fill_source (w : world) (model : pydict) (key : string)
    (a : array) : Prop :=
  (∃ v, model !! key = Some (a :: v)) ∨
  (model !! key = None ∧
   loadbyproc (MODEL_INIT w) key w = (Ok (Some a), w)).

(** The grid resolution in the words of the specification:
    round(sqrt(nodeCount × xExtent / zExtent)). *)
Definition grid_resolution_spec (nodeCount : nat) (xExtent zExtent : Q) : Q :=
  np_around (np_sqrt (inject_Z (Z.of_nat nodeCount) * xExtent / zExtent)%Q).

(** *** The rest of the class *)

(** The names defined in the registries [PAR] and [PATH]. *)
Variables PAR PATH : gset string.

(** [check] of the base class. *)
Variable base_check : py unit.

(** [unix.mkdir_gpfs(path)] *)
Variable mkdir_gpfs : string → py unit.

(** [check]: a bare [raise Exception] raises an exception without
    message. *)
Definition check : py unit :=
  base_check >>
  (* check time stepping parameters *)
  (if decide ("NT" ∉ PAR) then raise (Exception "") else ret tt) >>
  (if decide ("DT" ∉ PAR) then raise (Exception "") else ret tt) >>
  (if decide ("F0" ∉ PAR) then raise (Exception "") else ret tt) >>
  (* check solver executables directory *)
  (if decide ("SPECFEM2D_BIN" ∉ PATH) then ret tt (* pass *) else ret tt) >>
  (* check solver input files directory *)
  (if decide ("SPECFEM2D_DATA" ∉ PATH) then ret tt (* pass *) else ret tt).

(** [k] zeros. *)
Fixpoint zeros (k : nat) : string :=
  match k with
  | 0 => ""
  | S k => "0" +:+ zeros k
  end.

(** ['%06d' % n]: the decimal digits padded with zeros on the left to a
    width of six, the sign of a negative number counting as one. *)
Definition format_06d (n : Z) : string :=
  if (n <? 0)%Z
  then let digits := str (Z.to_nat (- n)) in
       "-" +:+ zeros (5 - String.length digits) +:+ digits
  else let digits := str (Z.to_nat n) in
       zeros (6 - String.length digits) +:+ digits.

Definition export_kernels (path : string) : py unit :=
  mkdir_gpfs (join path "kernels") >>
  w <- get_world ;;
  let src := join (getpath w)
               "OUTPUT_FILES/proc000000_rhop_alpha_beta_kernel.dat" in
  let dst := join (join path "kernels") (format_06d (getnode w)) in
  unix (cp src dst).

(** [import_model]: [join] of a single path is that path. *)
Definition import_model (path : string) : py unit :=
  w <- get_world ;;
  let src := path +:+ "/" +:+ "model" in
  let dst := join (getpath w) "DATA/model_velocity.dat_input" in
  unix (cp src dst).

(** *** Vocabulary of the further statements *)

(** The number a string of decimal digits stands for, leading zeros
    allowed; with a leading minus sign, its opposite. *)
Definition digits_value (s : string) : option nat :=
  Nat.of_uint <$> NilEmpty.uint_of_string s.

Definition parse_int (s : string) : option Z :=
  match s with
  | String c s' =>
      if decide (String c "" = "-")
      then (λ n, (- Z.of_nat n)%Z) <$> digits_value s'
      else Z.of_nat <$> digits_value s
  | "" => Z.of_nat <$> digits_value s
  end.

(** The column [save] writes for [key], the [i]-th field: the array of the
    dictionary when it has the key, else the column of the initial model
    [ref], whose data columns start at [ioff]. *)
Definition expected_column (model : pydict) (ref : table) (ioff : nat)
    (key : string) (i : nat) : option array :=
  match model !! key with
  | Some (a :: _) => Some a
  | Some [] => None
  | None => column (ioff + i) ref
  end.

(** A table with its first column set to zero. *)
Definition zero_first_column (rows : table) : table :=
  map (λ r : array, <[0 := 0%Q]> r) rows.

(** *** Further example data *)

(** A kernel dictionary with the coordinates and vs only, for three
    nodes. *)
Definition vs_only_dict : pydict :=
  <["x" := [[0; 1; 2]%Q]]> (<["z" := [[0; 0; 5]%Q]]>
    (<["vs" := [[-10; 3; 10]%Q]]> ∅)).

(** The world of worker 3 with no initial model on disk, and with an
    initial model of two nodes. *)
Definition w_no_model : world :=
  World {[ "kernels/gradient" := kernel_table ]} 3 "/scratch/solver/000003"
        "model_init" (λ _, []) [].


(** ** Verification *)

(** *** The monad *)

Lemma bind_Ok {A B} (m : py A) (k : A → py B) w a w' :
  m w = (Ok a, w') → bind m k w = k a w'.
Proof. unfold bind. by intros ->. Qed.

Lemma bind_Raise {A B} (m : py A) (k : A → py B) w e w' :
  m w = (Raise e, w') → bind m k w = (Raise e, w').
Proof. unfold bind. by intros ->. Qed.

Lemma for_each_cons {A S} (x : A) xs (body : S → A → py S) s :
  for_each (x :: xs) body s = bind (body s x) (for_each xs body).
Proof. reflexivity. Qed.

(** *** Tables and columns *)

Lemma rectangular_Forall rows :
  rectangular rows = true →
  Forall (λ r : array, length r = table_ncol rows) rows.
Proof.
  unfold rectangular. intros H. apply Forall_forall. intros r Hr.
  rewrite forallb_forall in H. apply Nat.eqb_eq, H. by apply list_elem_of_In.
Qed.

Lemma is_2d_shape rows :
  is_2d rows = true →
  has_shape (length rows) (table_ncol rows) rows ∧
  2 ≤ length rows ∧ 2 ≤ table_ncol rows.
Proof.
  unfold is_2d. rewrite !andb_true_iff, !Nat.leb_le. intros [[Hr Hn] Hm].
  split; [split; [done | by apply rectangular_Forall] | done].
Qed.

Lemma squeeze_2d rows : is_2d rows = true → squeeze rows = Arr2 rows.
Proof.
  intros H. destruct (is_2d_shape _ H) as (_ & Hn & Hm).
  destruct rows as [|r1 [|r2 rows]]; simpl in *; try lia.
  destruct (Nat.eqb_spec (length r1) 1); [lia | done].
Qed.

Lemma column_is_Some n m j rows :
  has_shape n m rows → j < m → ∃ c, column j rows = Some c ∧ length c = n.
Proof.
  intros [Hn Hall] Hj.
  destruct (mapM_is_Some_2 (λ r : array, r !! j) rows) as [c Hc].
  { eapply Forall_impl; [exact Hall|]. intros r Hr. simpl in *.
    apply lookup_lt_is_Some. lia. }
  exists c. split; [done|]. apply length_mapM in Hc. lia.
Qed.

Lemma column_zeros n m j :
  j < m → column j (np_zeros n m) = Some (replicate n 0%Q).
Proof.
  intros Hj. unfold column, np_zeros. apply mapM_Some.
  apply Forall2_replicate. by apply lookup_replicate_2.
Qed.

Lemma has_shape_zeros n m : has_shape n m (np_zeros n m).
Proof.
  split; [apply length_replicate|].
  apply Forall_replicate, length_replicate.
Qed.

Lemma column_zip_insert_eq j (rows : table) (a : array) :
  length a = length rows → Forall (λ r : array, j < length r) rows →
  column j (zip_with (λ (r : array) v, <[j := v]> r) rows a) = Some a.
Proof.
  intros Hlen Hall. apply mapM_Some.
  revert a Hlen. induction Hall as [|r rows Hr Hall IH]; intros [|v a] Hlen;
    simpl in *; try discriminate; constructor.
  - by apply list_lookup_insert_eq.
  - apply IH. lia.
Qed.

Lemma column_zip_insert_ne j k (rows : table) (a : array) :
  length a = length rows → k ≠ j →
  column k (zip_with (λ (r : array) v, <[j := v]> r) rows a) = column k rows.
Proof.
  intros Hlen Hne. unfold column.
  revert a Hlen. induction rows as [|r rows IH]; intros [|v a] Hlen;
    simpl in *; try discriminate; [done|].
  rewrite list_lookup_insert_ne by done.
  rewrite IH by lia. done.
Qed.

Lemma has_shape_zip_insert n m j (rows : table) (a : array) :
  length a = n → has_shape n m rows →
  has_shape n m (zip_with (λ (r : array) v, <[j := v]> r) rows a).
Proof.
  intros Hlen [Hn Hall]. split.
  - rewrite length_zip_with_l_eq; lia.
  - rewrite <- Hn in Hlen. clear Hn. revert a Hlen.
    induction Hall as [|r rows Hr Hall IH]; intros [|v a] Hlen;
      simpl in *; try discriminate; constructor.
    + by rewrite length_insert.
    + apply IH. lia.
Qed.

(** Assigning a column of the right length succeeds, sets that column and
    leaves the others. *)
Lemma setcol_spec n m j (rows : table) (a : array) w :
  has_shape n m rows → j < m → length a = n →
  ∃ rows', setcol rows j a w = (Ok rows', w) ∧ has_shape n m rows' ∧
    column j rows' = Some a ∧ ∀ k, k ≠ j → column k rows' = column k rows.
Proof.
  intros Hs Hj Hlen. pose proof Hs as [Hn Hall].
  exists (zip_with (λ (r : array) v, <[j := v]> r) rows a).
  split; [|split; [|split]].
  - unfold setcol.
    assert (negb (j <? table_ncol rows) && negb (Nat.eqb (length rows) 0)
            = false) as ->.
    { destruct rows as [|r rows]; [done|]. simpl.
      inversion Hall; subst.
      destruct (Nat.ltb_spec j (length r)); [done | lia]. }
    assert (Nat.eqb (length a) (length rows) = true) as ->
      by (apply Nat.eqb_eq; lia).
    done.
  - by apply has_shape_zip_insert.
  - apply column_zip_insert_eq; [lia|].
    eapply Forall_impl; [exact Hall|]. simpl. lia.
  - intros k Hk. apply column_zip_insert_ne; [lia | done].
Qed.

(** *** Reading a table *)

Lemma np_loadtxt_2d w f rows :
  disk w !! f = Some rows → is_2d rows = true →
  np_loadtxt f w = (Ok (Arr2 rows), w).
Proof.
  intros Hf H2. unfold np_loadtxt, bind, get_world. rewrite Hf.
  pose proof H2 as H2'. unfold is_2d in H2'.
  rewrite !andb_true_iff in H2'. destruct H2' as [[-> _] _].
  by rewrite squeeze_2d.
Qed.

Lemma getcol_Arr2 rows j c w :
  column j rows = Some c → getcol (Arr2 rows) j w = (Ok c, w).
Proof. unfold getcol. by intros ->. Qed.

(** [load] on a 2-D table of 5 or 6 columns: the five fields are the
    columns from the offset on. *)
Lemma load_2d w f rows ioff :
  disk w !! f = Some rows → is_2d rows = true →
  (table_ncol rows = 5 ∧ ioff = 0 ∨ table_ncol rows = 6 ∧ ioff = 1) →
  ∃ x z rho vp vs,
    (column ioff rows = Some x ∧ column (ioff + 1) rows = Some z ∧
     column (ioff + 2) rows = Some rho ∧ column (ioff + 3) rows = Some vp ∧
     column (ioff + 4) rows = Some vs) ∧
    (length x = length rows ∧ length z = length rows ∧
     length rho = length rows ∧ length vp = length rows ∧
     length vs = length rows) ∧
    load f w = (Ok (fields_of x z rho vp vs), w).
Proof.
  intros Hf H2 Hcol.
  destruct (is_2d_shape _ H2) as (Hs & _ & _).
  assert (ioff + 4 < table_ncol rows) as Hlt by (destruct Hcol as [[-> ->]|[-> ->]]; lia).
  destruct (column_is_Some _ _ ioff _ Hs) as (x & Hx & Lx); [lia|].
  destruct (column_is_Some _ _ (ioff + 1) _ Hs) as (z & Hz & Lz); [lia|].
  destruct (column_is_Some _ _ (ioff + 2) _ Hs) as (rho & Hrho & Lrho); [lia|].
  destruct (column_is_Some _ _ (ioff + 3) _ Hs) as (vp & Hvp & Lvp); [lia|].
  destruct (column_is_Some _ _ (ioff + 4) _ Hs) as (vs & Hvs & Lvs); [lia|].
  exists x, z, rho, vp, vs. split; [done|]. split; [done|].
  unfold load. rewrite (bind_Ok _ _ _ _ _ (np_loadtxt_2d _ _ _ Hf H2)).
  simpl. unfold bind at 1 2; simpl.
  assert (column_offset (table_ncol rows) w = (Ok ioff, w)) as Hoff
    by (destruct Hcol as [[-> ->]|[-> ->]]; done).
  rewrite (bind_Ok _ _ _ _ _ Hoff). simpl.
  clear Hoff Hlt. unfold bind.
  destruct Hcol as [[_ ->]|[_ ->]]; simpl in *.
  all: rewrite (getcol_Arr2 _ _ _ _ Hx); simpl.
  all: rewrite (getcol_Arr2 _ _ _ _ Hz); simpl.
  all: rewrite (getcol_Arr2 _ _ _ _ Hrho); simpl.
  all: rewrite (getcol_Arr2 _ _ _ _ Hvp); simpl.
  all: rewrite (getcol_Arr2 _ _ _ _ Hvs); simpl.
  all: done.
Qed.

(** *** Dictionaries *)

Lemma elem_of_keys (model : pydict) key :
  key ∈ keys model ↔ is_Some (model !! key).
Proof.
  unfold keys. rewrite list_elem_of_fmap. split.
  - intros [[k v] [-> Hin]]. apply elem_of_map_to_list in Hin. by exists v.
  - intros [v Hv]. exists (key, v). split; [done|].
    by apply elem_of_map_to_list.
Qed.

Lemma dict_get_Some (model : pydict) key v w :
  model !! key = Some v → dict_get model key w = (Ok v, w).
Proof. unfold dict_get. by intros ->. Qed.

(** The row count [save] takes from an arbitrary key is the common length
    of the arrays. *)
Lemma save_nrow_spec (model : pydict) n w :
  model ≠ ∅ →
  (∀ k v, model !! k = Some v → ∃ a v', v = a :: v' ∧ length a = n) →
  save_nrow model w = (Ok n, w).
Proof.
  intros Hne Hall. unfold save_nrow.
  destruct (last (keys model)) as [k|] eqn:Hlast.
  - assert (is_Some (model !! k)) as [v Hv].
    { apply elem_of_keys. by apply last_Some_elem_of. }
    destruct (Hall _ _ Hv) as (a & v' & -> & Hlen).
    unfold pop. rewrite Hlast.
    unfold bind; simpl. rewrite (dict_get_Some _ _ _ _ Hv). simpl.
    by rewrite Hlen.
  - apply last_None in Hlast. unfold keys in Hlast.
    apply fmap_nil_inv in Hlast. by apply map_to_list_empty_iff in Hlast.
Qed.

Lemma fields_of_lookup x z rho vp vs :
  let m := fields_of x z rho vp vs in
  m !! "x" = Some [x] ∧ m !! "z" = Some [z] ∧ m !! "rho" = Some [rho] ∧
  m !! "vp" = Some [vp] ∧ m !! "vs" = Some [vs].
Proof. unfold fields_of. repeat split; by simplify_map_eq. Qed.

Lemma fields_of_values x z rho vp vs n :
  length x = n → length z = n → length rho = n → length vp = n →
  length vs = n →
  ∀ k v, fields_of x z rho vp vs !! k = Some v →
         ∃ a v', v = a :: v' ∧ length a = n.
Proof.
  intros Lx Lz Lrho Lvp Lvs k v. unfold fields_of.
  rewrite !lookup_insert. repeat case_decide; intros [= <-]; eauto.
Qed.

(** *** Writing a table *)

Lemma loadbyproc_2d w f rows ioff key i c :
  disk w !! f = Some rows → is_2d rows = true →
  (table_ncol rows = 5 ∧ ioff = 0 ∨ table_ncol rows = 6 ∧ ioff = 1) →
  field_index key = Some i →
  column (ioff + i) rows = Some c →
  loadbyproc f key w = (Ok (Some c), w).
Proof.
  intros Hf H2 Hcol Hi Hc.
  unfold loadbyproc. rewrite (bind_Ok _ _ _ _ _ (np_loadtxt_2d _ _ _ Hf H2)).
  simpl. unfold bind at 1 2; simpl.
  assert (column_offset (table_ncol rows) w = (Ok ioff, w)) as Hoff
    by (destruct Hcol as [[-> ->]|[-> ->]]; done).
  rewrite (bind_Ok _ _ _ _ _ Hoff).
  unfold field_index in Hi.
  repeat case_decide; try discriminate; injection Hi as <-;
    by rewrite (bind_Ok _ _ _ _ _ (getcol_Arr2 _ _ _ _ Hc)).
Qed.

Lemma save_column_spec w (model : pydict) ioff n m M icol key a :
  has_shape n m M → icol + ioff < m →
  fill_source w model key a → length a = n →
  ∃ M', save_column model ioff M (icol, key) w = (Ok M', w) ∧
    has_shape n m M' ∧ column (icol + ioff) M' = Some a ∧
    ∀ k, k ≠ icol + ioff → column k M' = column k M.
Proof.
  intros Hs Hlt Hsrc Hlen.
  destruct (setcol_spec _ _ _ _ _ w Hs Hlt Hlen) as (M' & Hset & HM').
  exists M'. split; [|done]. unfold save_column.
  destruct Hsrc as [[v Hv]|[Hnone Hload]].
  - rewrite decide_True by (apply elem_of_keys; eauto).
    by rewrite (bind_Ok _ _ _ _ _ (dict_get_Some _ _ _ _ Hv)).
  - rewrite decide_False
      by (rewrite elem_of_keys, Hnone; by intros [? [=]]).
    unfold bind at 1. simpl. by rewrite (bind_Ok _ _ _ _ _ Hload).
Qed.

(** [save] with a known kind, on a dictionary whose row count is [n] and
    with the five columns available (in the dictionary or in the initial
    model): the table written has those columns from the offset on, and
    zeros in the identifier column of a model. *)
Lemma save_spec w filename (model : pydict) type ioff ncol n x z rho vp vs :
  (type = "model" ∧ ioff = 1 ∧ ncol = 6 ∨
   type = "kernel" ∧ ioff = 0 ∧ ncol = 5) →
  save_nrow model w = (Ok n, w) →
  fill_source w model "x" x → fill_source w model "z" z →
  fill_source w model "rho" rho → fill_source w model "vp" vp →
  fill_source w model "vs" vs →
  length x = n → length z = n → length rho = n → length vp = n →
  length vs = n →
  ∃ M', save filename model type w
        = (Ok tt, emit (Savetxt filename "%16.10e")
                       (set_disk (<[filename := printed M']>) w)) ∧
    has_shape n ncol M' ∧
    (column ioff M' = Some x ∧ column (ioff + 1) M' = Some z ∧
     column (ioff + 2) M' = Some rho ∧ column (ioff + 3) M' = Some vp ∧
     column (ioff + 4) M' = Some vs) ∧
    (ioff = 1 → column 0 M' = Some (replicate n 0%Q)).
Proof.
  intros Hty Hn Sx Sz Srho Svp Svs Lx Lz Lrho Lvp Lvs.
  assert (ioff + 4 < ncol) as Hlt by (destruct Hty as [(_&->&->)|(_&->&->)]; lia).
  pose proof (has_shape_zeros n ncol) as H0.
  destruct (save_column_spec w model ioff n ncol _ 0 "x" x H0)
    as (M1 & E1 & H1 & C1 & K1); [lia|done..|].
  destruct (save_column_spec w model ioff n ncol _ 1 "z" z H1)
    as (M2 & E2 & H2 & C2 & K2); [lia|done..|].
  destruct (save_column_spec w model ioff n ncol _ 2 "rho" rho H2)
    as (M3 & E3 & H3 & C3 & K3); [lia|done..|].
  destruct (save_column_spec w model ioff n ncol _ 3 "vp" vp H3)
    as (M4 & E4 & H4 & C4 & K4); [lia|done..|].
  destruct (save_column_spec w model ioff n ncol _ 4 "vs" vs H4)
    as (M5 & E5 & H5 & C5 & K5); [lia|done..|].
  exists M5. split; [|split; [done|split]].
  - unfold save.
    assert ((if decide (type = "model")
             then nrow <- save_nrow model;; ret (1, np_zeros nrow 6)
             else if decide (type = "kernel")
                  then nrow <- save_nrow model;; ret (0, np_zeros nrow 5)
                  else raise ValueError) w
            = (Ok (ioff, np_zeros n ncol), w)) as Halloc.
    { destruct Hty as [(->&->&->)|(->&->&->)]; simpl;
        by rewrite (bind_Ok _ _ _ _ _ Hn). }
    rewrite (bind_Ok _ _ _ _ _ Halloc). cbv beta iota.
    assert (for_each (enumerate ["x"; "z"; "rho"; "vp"; "vs"])
              (save_column model ioff) (np_zeros n ncol) w
            = (Ok M5, w)) as Hloop.
    { change (enumerate ["x"; "z"; "rho"; "vp"; "vs"])
        with [(0, "x"); (1, "z"); (2, "rho"); (3, "vp"); (4, "vs")].
      rewrite for_each_cons, (bind_Ok _ _ _ _ _ E1).
      rewrite for_each_cons, (bind_Ok _ _ _ _ _ E2).
      rewrite for_each_cons, (bind_Ok _ _ _ _ _ E3).
      rewrite for_each_cons, (bind_Ok _ _ _ _ _ E4).
      by rewrite for_each_cons, (bind_Ok _ _ _ _ _ E5). }
    by rewrite (bind_Ok _ _ _ _ _ Hloop).
  - rewrite K5, K4, K3, K2 by lia.
    rewrite K5, K4, K3 by lia.
    rewrite K5, K4 by lia.
    rewrite K5 by lia.
    replace (ioff + 1) with (1 + ioff) by lia.
    replace (ioff + 2) with (2 + ioff) by lia.
    replace (ioff + 3) with (3 + ioff) by lia.
    replace (ioff + 4) with (4 + ioff) by lia.
    done.
  - intros ->. rewrite K5, K4, K3, K2, K1 by lia.
    apply column_zeros. lia.
Qed.

(** *** Minimum, maximum and clipping *)

Lemma fold_Qmin_le (a : array) v :
  (fold_left Qmin a v <= v)%Q ∧ Forall (λ u, fold_left Qmin a v <= u)%Q a.
Proof.
  revert v. induction a as [|u a IH]; intros v; simpl.
  - split; [apply Qle_refl | constructor].
  - destruct (IH (Qmin v u)) as [Hv Ha]. split; [|constructor; [|done]].
    + eapply Qle_trans; [exact Hv | apply Q.le_min_l].
    + eapply Qle_trans; [exact Hv | apply Q.le_min_r].
Qed.

Lemma fold_Qmax_ge (a : array) v :
  (v <= fold_left Qmax a v)%Q ∧ Forall (λ u, u <= fold_left Qmax a v)%Q a.
Proof.
  revert v. induction a as [|u a IH]; intros v; simpl.
  - split; [apply Qle_refl | constructor].
  - destruct (IH (Qmax v u)) as [Hv Ha]. split; [|constructor; [|done]].
    + eapply Qle_trans; [apply Q.le_max_l | exact Hv].
    + eapply Qle_trans; [apply Q.le_max_r | exact Hv].
Qed.

Lemma fold_Qmin_elem (a : array) v : fold_left Qmin a v ∈ v :: a.
Proof.
  revert v. induction a as [|u a IH]; intros v; simpl; [apply list_elem_of_here|].
  assert (Qmin v u = v ∨ Qmin v u = u) as HE
    by (unfold Qmin, GenericMinMax.gmin; destruct (v ?= u)%Q; auto).
  destruct (proj1 (elem_of_cons _ _ _) (IH (Qmin v u))) as [->|Hin].
  - destruct HE as [->| ->]; [|apply list_elem_of_further];
      apply list_elem_of_here.
  - by do 2 apply list_elem_of_further.
Qed.

Lemma fold_Qmax_elem (a : array) v : fold_left Qmax a v ∈ v :: a.
Proof.
  revert v. induction a as [|u a IH]; intros v; simpl; [apply list_elem_of_here|].
  assert (Qmax v u = v ∨ Qmax v u = u) as HE
    by (unfold Qmax, GenericMinMax.gmax; destruct (v ?= u)%Q; auto).
  destruct (proj1 (elem_of_cons _ _ _) (IH (Qmax v u))) as [->|Hin].
  - destruct HE as [->| ->]; [|apply list_elem_of_further];
      apply list_elem_of_here.
  - by do 2 apply list_elem_of_further.
Qed.

(** [a.min()] of a non-empty array is a value of the array below all of
    them; [a.max()] one above all of them. *)
Lemma np_min_spec (a : array) w :
  a ≠ [] →
  ∃ mn, np_min a w = (Ok mn, w) ∧ mn ∈ a ∧ Forall (λ u, mn <= u)%Q a.
Proof.
  destruct a as [|v a]; [done|]. intros _.
  exists (fold_left Qmin a v). split; [done|]. split; [apply fold_Qmin_elem|].
  destruct (fold_Qmin_le a v). by constructor.
Qed.

Lemma np_max_spec (a : array) w :
  a ≠ [] →
  ∃ mx, np_max a w = (Ok mx, w) ∧ mx ∈ a ∧ Forall (λ u, u <= mx)%Q a.
Proof.
  destruct a as [|v a]; [done|]. intros _.
  exists (fold_left Qmax a v). split; [done|]. split; [apply fold_Qmax_elem|].
  destruct (fold_Qmax_ge a v). by constructor.
Qed.

Lemma np_min_le_max (a : array) w mn mx :
  np_min a w = (Ok mn, w) → np_max a w = (Ok mx, w) → (mn <= mx)%Q.
Proof.
  destruct a as [|v a]; [done|]. simpl. intros [= <-] [= <-].
  eapply Qle_trans; [apply fold_Qmin_le | apply fold_Qmax_ge].
Qed.

Lemma extent_min_max (a : array) w mn mx :
  np_min a w = (Ok mn, w) → np_max a w = (Ok mx, w) →
  extent a = (mx - mn)%Q.
Proof. destruct a as [|v a]; [done|]. simpl. by intros [= <-] [= <-]. Qed.

Lemma clip_value_range (lo hi v : Q) :
  (lo <= hi)%Q →
  let v' := if negb (Qle_bool lo v) then lo
            else if negb (Qle_bool v hi) then hi else v in
  (lo <= v' ∧ v' <= hi)%Q.
Proof.
  intros Hle. simpl.
  destruct (Qle_bool lo v) eqn:H1; simpl.
  - apply Qle_bool_iff in H1.
    destruct (Qle_bool v hi) eqn:H2; simpl.
    + apply Qle_bool_iff in H2. exact (conj H1 H2).
    + split; [exact Hle | apply Qle_refl].
  - split; [apply Qle_refl | exact Hle].
Qed.

Lemma clip_value_inside (lo hi v : Q) :
  (lo <= v ∧ v <= hi)%Q →
  (if negb (Qle_bool lo v) then lo
   else if negb (Qle_bool v hi) then hi else v) = v.
Proof.
  intros [Hlo Hhi].
  apply Qle_bool_iff in Hlo. apply Qle_bool_iff in Hhi.
  rewrite Hlo, Hhi. reflexivity.
Qed.

(** With ordered bounds [np.clip] clamps every value into the interval and
    keeps the values already inside. *)
Lemma np_clip_clamped (lo hi : Q) (a : array) :
  (lo <= hi)%Q → clamped_into lo hi a (np_clip a lo hi).
Proof.
  intros Hle. unfold clamped_into, np_clip.
  induction a as [|v a IH]; simpl; constructor; [|done].
  split; [by apply clip_value_range | apply clip_value_inside].
Qed.

Lemma length_np_clip (a : array) lo hi : length (np_clip a lo hi) = length a.
Proof. unfold np_clip. apply length_map. Qed.

(** *** Post-processing: what [smooth] and [clip] write *)

(** Saving, as a model, the loaded dictionary with its [vs] entry
    replaced: a table of six columns, zeros in the first. *)
Lemma save_updated_vs w filename x z rho vp vs vs' n :
  length x = n → length z = n → length rho = n → length vp = n →
  length vs' = n →
  ∃ M', save filename (<["vs" := [vs']]> (fields_of x z rho vp vs)) "model" w
        = (Ok tt, emit (Savetxt filename "%16.10e")
                       (set_disk (<[filename := printed M']>) w)) ∧
    has_shape n 6 M' ∧
    column 0 M' = Some (replicate n 0%Q) ∧
    column 1 M' = Some x ∧ column 2 M' = Some z ∧
    column 3 M' = Some rho ∧ column 4 M' = Some vp ∧
    column 5 M' = Some vs'.
Proof.
  intros Lx Lz Lrho Lvp Lvs'.
  set (model := <["vs" := [vs']]> (fields_of x z rho vp vs)).
  assert (model !! "x" = Some [x] ∧ model !! "z" = Some [z] ∧
          model !! "rho" = Some [rho] ∧ model !! "vp" = Some [vp] ∧
          model !! "vs" = Some [vs']) as (Hx & Hz & Hrho & Hvp & Hvs).
  { unfold model, fields_of. repeat split; by simplify_map_eq. }
  assert (save_nrow model w = (Ok n, w)) as Hn.
  { apply save_nrow_spec; [apply insert_non_empty|].
    intros k v. unfold model, fields_of.
    rewrite !lookup_insert. repeat case_decide; intros [= <-]; eauto. }
  clearbody model.
  destruct (save_spec w filename model "model" 1 6 n x z rho vp vs'
              (or_introl (conj eq_refl (conj eq_refl eq_refl))) Hn
              (or_introl (ex_intro _ [] Hx)) (or_introl (ex_intro _ [] Hz))
              (or_introl (ex_intro _ [] Hrho)) (or_introl (ex_intro _ [] Hvp))
              (or_introl (ex_intro _ [] Hvs)) Lx Lz Lrho Lvp Lvs')
    as (M' & Hsave & Hshape & (Cx & Cz & Crho & Cvp & Cvs) & C0).
  exists M'. split; [exact Hsave|]. split; [exact Hshape|].
  split; [by apply C0|]. by repeat split.
Qed.

Lemma smooth_grid_spec (x z : array) w :
  x ≠ [] → z ≠ [] →
  let r := grid_resolution_spec (length x) (extent x) (extent z) in
  smooth_grid x z w = (Ok (r, r), w).
Proof.
  intros Hx Hz.
  destruct (np_max_spec x w Hx) as (xmax & Exmax & _).
  destruct (np_min_spec x w Hx) as (xmin & Exmin & _).
  destruct (np_max_spec z w Hz) as (zmax & Ezmax & _).
  destruct (np_min_spec z w Hz) as (zmin & Ezmin & _).
  simpl. unfold smooth_grid.
  rewrite (bind_Ok _ _ _ _ _ Exmax), (bind_Ok _ _ _ _ _ Exmin).
  rewrite (bind_Ok _ _ _ _ _ Ezmax), (bind_Ok _ _ _ _ _ Ezmin).
  rewrite (extent_min_max x w xmin xmax), (extent_min_max z w zmin zmax)
    by done.
  done.
Qed.

Lemma Qeq_bool_false (q : Q) : ¬ (q == 0)%Q → Qeq_bool q 0 = false.
Proof.
  intros Hq. destruct (Qeq_bool q 0) eqn:E; [|reflexivity].
  apply Qeq_bool_iff in E. contradiction.
Qed.

Lemma Qle_bool_false (q : Q) : (q < 1)%Q → Qle_bool 1 q = false.
Proof.
  intros Hq. destruct (Qle_bool 1 q) eqn:E; [|reflexivity].
  apply Qle_bool_iff in E. lra.
Qed.

(** [model[key][0]] *)
Lemma dict_get_item0 (model : pydict) key a v w :
  model !! key = Some (a :: v) →
  bind (dict_get model key) (λ v, getitem v 0) w = (Ok a, w).
Proof.
  intros Hk. rewrite (bind_Ok _ _ _ _ _ (dict_get_Some _ _ _ _ Hk)).
  reflexivity.
Qed.

Lemma length_nonempty {A} (l : list A) n : length l = n → 2 ≤ n → l ≠ [].
Proof. intros <- Hn ->. simpl in Hn. lia. Qed.

(** A run of [smooth] with a non-zero span on a 2-D table of 5 or 6
    columns. *)
Lemma smooth_run w path tag span rows ioff :
  let file := path +:+ "/" +:+ tag in
  disk w !! file = Some rows → is_2d rows = true →
  (table_ncol rows = 5 ∧ ioff = 0 ∨ table_ncol rows = 6 ∧ ioff = 1) →
  ¬ (span == 0)%Q →
  (∀ x z v s nx nz, length (meshsmooth x z v s nx nz) = length v) →
  ∃ x z rho vp vs M',
    (column ioff rows = Some x ∧ column (ioff + 1) rows = Some z ∧
     column (ioff + 2) rows = Some rho ∧ column (ioff + 3) rows = Some vp ∧
     column (ioff + 4) rows = Some vs) ∧
    smooth path tag span w
    = (Ok None,
       emit (Savetxt file "%16.10e")
         (set_disk (<[file := printed M']>)
            (emit (Unix (mv file (path +:+ "/" +:+ "_nosmooth")))
               (set_disk (unix_run (mv file (path +:+ "/" +:+ "_nosmooth")))
                  w)))) ∧
    has_shape (length rows) 6 M' ∧
    column 0 M' = Some (replicate (length rows) 0%Q) ∧
    column 1 M' = Some x ∧ column 2 M' = Some z ∧
    column 3 M' = Some rho ∧ column 4 M' = Some vp ∧
    let r := grid_resolution_spec (length x) (extent x) (extent z) in
    column 5 M' = Some (meshsmooth x z vs span r r).
Proof.
  intros file Hf H2 Hcol Hspan Hms.
  destruct (is_2d_shape _ H2) as (_ & Hn & _).
  pose proof (Qeq_bool_false _ Hspan) as Hspan'.
  destruct (load_2d w file rows ioff Hf H2 Hcol)
    as (x & z & rho & vp & vs & Hcols & (Lx & Lz & Lrho & Lvp & Lvs) & Hload).
  pose proof (length_nonempty _ _ Lx Hn) as Nx.
  pose proof (length_nonempty _ _ Lz Hn) as Nz.
  set (r := grid_resolution_spec (length x) (extent x) (extent z)).
  set (w1 := emit (Unix (mv file (path +:+ "/" +:+ "_nosmooth")))
               (set_disk (unix_run (mv file (path +:+ "/" +:+ "_nosmooth"))) w)).
  assert (length (meshsmooth x z vs span r r) = length rows) as Lvs'.
  { rewrite Hms. exact Lvs. }
  destruct (save_updated_vs w1 file x z rho vp vs
              (meshsmooth x z vs span r r) (length rows) Lx Lz Lrho Lvp Lvs')
    as (M' & Hsave & Hshape & HM').
  exists x, z, rho, vp, vs, M'. split; [exact Hcols|].
  split; [|exact (conj Hshape HM')].
  clear Hshape HM' Hcols.
  unfold smooth. fold file. rewrite (bind_Ok _ _ _ _ _ Hload).
  rewrite Hspan'.
  destruct (fields_of_lookup x z rho vp vs) as (Gx & Gz & _ & _ & Gvs).
  rewrite (bind_Ok _ _ _ _ _ (dict_get_item0 _ _ _ _ _ Gx)).
  rewrite (bind_Ok _ _ _ _ _ (dict_get_item0 _ _ _ _ _ Gz)).
  rewrite (bind_Ok _ _ _ _ _ (smooth_grid_spec x z _ Nx Nz)).
  cbv beta iota. fold r.
  change parameters with ["vs"].
  rewrite for_each_cons. cbv beta.
  match goal with
  | |- bind (bind (bind ?m ?k) ?f) _ _ = _ =>
      assert (bind (bind m k) f w
              = (Ok (<["vs" := [meshsmooth x z vs span r r]]>
                       (fields_of x z rho vp vs)), w)) as Hloop
  end.
  { unfold bind. rewrite (dict_get_Some _ _ _ _ Gvs). reflexivity. }
  rewrite (bind_Ok _ _ _ _ _ Hloop).
  clear Hloop.
  change (bind (unix ?c) ?k w) with (k tt w1).
  cbv beta.
  rewrite (bind_Ok _ _ _ _ _ Hsave).
  reflexivity.
Qed.

(** A run of [clip] with a threshold below one on a 2-D table of 5 or 6
    columns. *)
Lemma clip_run w path tag thresh rows ioff :
  let file := path +:+ "/" +:+ tag in
  disk w !! file = Some rows → is_2d rows = true →
  (table_ncol rows = 5 ∧ ioff = 0 ∨ table_ncol rows = 6 ∧ ioff = 1) →
  (thresh < 1)%Q →
  ∃ x z rho vp vs minval maxval M',
    (column ioff rows = Some x ∧ column (ioff + 1) rows = Some z ∧
     column (ioff + 2) rows = Some rho ∧ column (ioff + 3) rows = Some vp ∧
     column (ioff + 4) rows = Some vs) ∧
    (np_min vs w = (Ok minval, w) ∧ np_max vs w = (Ok maxval, w)) ∧
    clip path tag thresh w
    = (Ok None,
       emit (Savetxt file "%16.10e")
         (set_disk (<[file := printed M']>)
            (emit (Unix (mv file (path +:+ "/" +:+ "_noclip")))
               (set_disk (unix_run (mv file (path +:+ "/" +:+ "_noclip")))
                  w)))) ∧
    has_shape (length rows) 6 M' ∧
    column 0 M' = Some (replicate (length rows) 0%Q) ∧
    column 1 M' = Some x ∧ column 2 M' = Some z ∧
    column 3 M' = Some rho ∧ column 4 M' = Some vp ∧
    column 5 M' = Some (np_clip vs (thresh * minval) (thresh * maxval)).
Proof.
  intros file Hf H2 Hcol Hth.
  destruct (is_2d_shape _ H2) as (_ & Hn & _).
  pose proof (Qle_bool_false _ Hth) as Hth'.
  destruct (load_2d w file rows ioff Hf H2 Hcol)
    as (x & z & rho & vp & vs & Hcols & (Lx & Lz & Lrho & Lvp & Lvs) & Hload).
  pose proof (length_nonempty _ _ Lvs Hn) as Nvs.
  destruct (np_min_spec vs w Nvs) as (minval & Emin & _).
  destruct (np_max_spec vs w Nvs) as (maxval & Emax & _).
  set (w1 := emit (Unix (mv file (path +:+ "/" +:+ "_noclip")))
               (set_disk (unix_run (mv file (path +:+ "/" +:+ "_noclip"))) w)).
  assert (length (np_clip vs (thresh * minval) (thresh * maxval))
          = length rows) as Lvs'.
  { rewrite length_np_clip. exact Lvs. }
  destruct (save_updated_vs w1 file x z rho vp vs
              (np_clip vs (thresh * minval) (thresh * maxval))
              (length rows) Lx Lz Lrho Lvp Lvs')
    as (M' & Hsave & Hshape & HM').
  exists x, z, rho, vp, vs, minval, maxval, M'.
  split; [exact Hcols|]. split; [exact (conj Emin Emax)|].
  split; [|exact (conj Hshape HM')].
  clear Hshape HM' Hcols.
  unfold clip. fold file. rewrite (bind_Ok _ _ _ _ _ Hload).
  rewrite Hth'.
  destruct (fields_of_lookup x z rho vp vs) as (_ & _ & _ & _ & Gvs).
  change parameters with ["vs"].
  rewrite for_each_cons. cbv beta.
  match goal with
  | |- bind (bind (bind ?m ?k) ?f) _ _ = _ =>
      assert (bind (bind m k) f w
              = (Ok (<["vs" := [np_clip vs (thresh * minval)
                                        (thresh * maxval)]]>
                       (fields_of x z rho vp vs)), w)) as Hloop
  end.
  { unfold bind. rewrite (dict_get_Some _ _ _ _ Gvs).
    change (getitem [vs] 0 w) with (Ok vs, w). cbv beta iota.
    rewrite Emin, Emax. reflexivity. }
  rewrite (bind_Ok _ _ _ _ _ Hloop).
  clear Hloop.
  change (bind (unix ?c) ?k w) with (k tt w1).
  cbv beta.
  rewrite (bind_Ok _ _ _ _ _ Hsave).
  reflexivity.
Qed.

(** *** Computations that only read *)

Lemma read_only_ret {A} (a : A) : read_only (ret a).
Proof. by intros w. Qed.

Lemma read_only_raise {A} e : read_only (@raise A e).
Proof. by intros w. Qed.

Lemma read_only_bind {A B} (m : py A) (k : A → py B) :
  read_only m → (∀ a, read_only (k a)) → read_only (bind m k).
Proof.
  intros Hm Hk w. unfold bind. specialize (Hm w).
  destruct (m w) as [[a|e] w']; simpl in *; subst; [apply Hk | done].
Qed.

Lemma read_only_for_each {A S} (xs : list A) (body : S → A → py S) s :
  (∀ s x, read_only (body s x)) → read_only (for_each xs body s).
Proof.
  intros Hbody. revert s. induction xs as [|x xs IH]; intros s; simpl.
  - apply read_only_ret.
  - apply read_only_bind; [apply Hbody | apply IH].
Qed.

Lemma read_only_getitem {A} (t : list A) i : read_only (getitem t i).
Proof. intros w. unfold getitem. by destruct (t !! i). Qed.

Lemma read_only_getcol a j : read_only (getcol a j).
Proof.
  intros w. unfold getcol. destruct a; try done. by destruct (column j rows).
Qed.

Lemma read_only_np_loadtxt filename : read_only (np_loadtxt filename).
Proof.
  intros w. unfold np_loadtxt, bind, get_world.
  destruct (disk w !! filename) as [rows|]; [|done].
  by destruct (rectangular rows).
Qed.

Lemma read_only_column_offset ncol : read_only (column_offset ncol).
Proof. intros w. unfold column_offset. by repeat case_match. Qed.

(** [load] reads and writes nothing. *)
Lemma read_only_load filename : read_only (load filename).
Proof.
  unfold load.
  apply read_only_bind; [apply read_only_np_loadtxt | intros M].
  apply read_only_bind; [apply read_only_getitem | intros nrow].
  apply read_only_bind; [apply read_only_getitem | intros ncol].
  apply read_only_bind; [apply read_only_column_offset | intros ioff].
  apply read_only_bind; [|intros [model ?]; apply read_only_ret].
  apply read_only_for_each. intros [model i] key.
  apply read_only_bind; [apply read_only_getcol | intros c].
  apply read_only_ret.
Qed.

(** *** The values ['%16.10e'] writes *)

Lemma round_half_even_close (q : Q) :
  (Qabs (inject_Z (round_half_even q) - q) <= 1 # 2)%Q.
Proof.
  unfold round_half_even.
  pose proof (Qfloor_le q) as Hlo. pose proof (Qlt_floor q) as Hhi.
  rewrite inject_Z_plus in Hhi.
  change (inject_Z 1) with 1%Q in Hhi.
  destruct (Qcompare_spec (q - inject_Z (Qfloor q)) (1 # 2)) as [He|Hl|Hg].
  - destruct (Z.even (Qfloor q)).
    + apply Qabs_case; intros _; lra.
    + rewrite inject_Z_plus. change (inject_Z 1) with 1%Q.
      apply Qabs_case; intros _; lra.
  - apply Qabs_case; intros _; lra.
  - rewrite inject_Z_plus. change (inject_Z 1) with 1%Q.
    apply Qabs_case; intros _; lra.
Qed.

Lemma exponent_above_le (fuel : nat) (e : Z) (q : Q) :
  (10 ^ e <= q)%Q → (10 ^ exponent_above fuel e q <= q)%Q.
Proof.
  revert e. induction fuel as [|fuel IH]; intros e He; simpl; [exact He|].
  destruct (Qle_bool (10 ^ (e + 1)) q) eqn:Hb; [|exact He].
  apply IH, Qle_bool_iff, Hb.
Qed.

Lemma exponent_above_lt (fuel : nat) (e hi : Z) (q : Q) :
  (e <= hi)%Z → (hi - e <= Z.of_nat fuel)%Z → (q < 10 ^ (hi + 1))%Q →
  (q < 10 ^ (exponent_above fuel e q + 1))%Q.
Proof.
  revert e. induction fuel as [|fuel IH]; intros e He Hf Hq; simpl.
  - replace e with hi by lia. exact Hq.
  - destruct (Qle_bool (10 ^ (e + 1)) q) eqn:Hb.
    + destruct (Z.eq_dec e hi) as [->|Hne].
      * apply Qle_bool_iff in Hb. exfalso. lra.
      * apply IH; [lia|lia|exact Hq].
    + apply Qnot_le_lt. intros H. apply Qle_bool_iff in H. congruence.
Qed.

Lemma Qpower_10_neg_le (k : Z) (n : Z) (d : positive) :
  (0 < n)%Z → (Z.pos d < 2 ^ k)%Z → (0 <= k)%Z → (10 ^ (- k) <= n # d)%Q.
Proof.
  intros Hn Hd Hk.
  rewrite Qpower_opp.
  assert (H10 : (inject_Z (10 ^ k) == 10 ^ k)%Q)
    by (apply (Zpower_Qpower 10 k Hk)).
  rewrite <- H10.
  assert (Hp : (Z.pos d < 10 ^ k)%Z).
  { eapply Z.lt_le_trans; [exact Hd|]. apply Z.pow_le_mono_l. lia. }
  destruct (10 ^ k)%Z as [|p|p] eqn:E; try lia.
  unfold Qle, Qinv, inject_Z. simpl. nia.
Qed.

Lemma Qlt_pow10 (n : Z) (d : positive) (k : Z) :
  (0 <= k)%Z → (n < 2 ^ k)%Z → (n # d < 10 ^ k)%Q.
Proof.
  intros Hk Hn.
  assert (H10 : (inject_Z (10 ^ k) == 10 ^ k)%Q)
    by (apply (Zpower_Qpower 10 k Hk)).
  rewrite <- H10.
  assert (Hp : (n < 10 ^ k)%Z).
  { eapply Z.lt_le_trans; [exact Hn|]. apply Z.pow_le_mono_l. lia. }
  unfold Qlt, inject_Z. simpl. nia.
Qed.

(** The search of [decimal_exponent] has fuel enough: the exponent found
    is the decimal exponent. *)
Lemma decimal_exponent_spec (q : Q) :
  (0 < q)%Q →
  (10 ^ decimal_exponent q <= q)%Q ∧ (q < 10 ^ (decimal_exponent q + 1))%Q.
Proof.
  intros Hq. destruct q as [n d].
  assert (Hn : (0 < n)%Z) by (unfold Qlt in Hq; simpl in Hq; lia).
  unfold decimal_exponent. simpl Qnum. simpl Qden.
  pose proof (Z.log2_nonneg (Z.pos d)) as Hd0.
  pose proof (Z.log2_nonneg n) as Hn0.
  split.
  - apply exponent_above_le.
    apply Qpower_10_neg_le; [exact Hn| |lia].
    apply Z.log2_spec. lia.
  - apply (exponent_above_lt _ _ (Z.log2 n)); [lia|lia|].
    apply Qlt_pow10; [lia|]. apply Z.log2_spec. exact Hn.
Qed.

Lemma scaled_rounding_close (a s t E M : Q) :
  (s * t == 1)%Q → (0 < t)%Q → (t == E * (1 # 10000000000))%Q → (E <= a)%Q →
  (Qabs (M - a * s) <= 1 # 2)%Q →
  (- ((5 # 100000000000) * a) <= M * t - a)%Q ∧
  (M * t - a <= (5 # 100000000000) * a)%Q.
Proof.
  intros Hst Ht HtE HE HM.
  apply Qabs_Qle_condition in HM as [H1 H2].
  assert (Heq : (M * t - a == (M - a * s) * t)%Q).
  { transitivity (M * t - a * (s * t))%Q; [rewrite Hst|]; ring. }
  assert (H3 : (- (1 # 2) * t <= (M - a * s) * t)%Q).
  { apply Qmult_le_compat_r; [exact H1|lra]. }
  assert (H4 : ((M - a * s) * t <= (1 # 2) * t)%Q).
  { apply Qmult_le_compat_r; [exact H2|lra]. }
  rewrite Heq. lra.
Qed.

(** ['%16.10e'] changes a value by at most half a unit of its eleventh
    significant digit. *)
Lemma fmt_16_10e_close (v : Q) :
  (Qabs (fmt_16_10e v - v) <= tolerance_16_10e * Qabs v)%Q.
Proof.
  unfold fmt_16_10e, tolerance_16_10e.
  destruct (Qeq_bool v 0) eqn:Hz.
  - apply Qeq_bool_iff in Hz. rewrite Hz. vm_compute. discriminate.
  - assert (Hnz : ¬ (v == 0)%Q).
    { intros H. apply Qeq_bool_iff in H. congruence. }
    assert (Ha : (0 < Qabs v)%Q).
    { pose proof (Qabs_nonneg v) as H.
      apply Qle_lt_or_eq in H as [H|H]; [exact H|].
      exfalso. apply Hnz. revert H. apply Qabs_case; intros; lra. }
    destruct (decimal_exponent_spec _ Ha) as [He _].
    set (e := decimal_exponent (Qabs v)) in *.
    set (m := round_half_even (Qabs v * 10 ^ (10 - e))).
    pose proof (round_half_even_close (Qabs v * 10 ^ (10 - e))) as Hm.
    fold m in Hm.
    assert (H10 : ¬ (10 == 0)%Q) by (intros H; discriminate H).
    assert (Hst : (10 ^ (10 - e) * 10 ^ (e - 10) == 1)%Q).
    { rewrite <- Qpower_plus by exact H10.
      replace (10 - e + (e - 10))%Z with 0%Z by lia. reflexivity. }
    assert (Ht : (0 < 10 ^ (e - 10))%Q) by (apply Qpower_0_lt; reflexivity).
    assert (HtE : (10 ^ (e - 10) == 10 ^ e * (1 # 10000000000))%Q).
    { replace (e - 10)%Z with (e + - 10)%Z by lia.
      rewrite Qpower_plus by exact H10. reflexivity. }
    destruct (scaled_rounding_close _ _ _ _ _ Hst Ht HtE He Hm) as [H1 H2].
    rewrite Qred_correct.
    apply Qabs_Qle_condition.
    destruct (Qle_bool 0 v) eqn:Hs.
    + apply Qle_bool_iff in Hs.
      assert (Hav : (Qabs v == v)%Q) by (apply Qabs_pos; exact Hs).
      rewrite Hav in H1, H2. rewrite Hav. split; lra.
    + assert (Hneg : (v < 0)%Q).
      { apply Qnot_le_lt. intros H. apply Qle_bool_iff in H. congruence. }
      assert (Hav : (Qabs v == - v)%Q) by (apply Qabs_neg; lra).
      rewrite Hav in H1, H2. rewrite Hav. split; lra.
Qed.

Lemma agree_within_fmt (a : array) :
  agree_within tolerance_16_10e a (map fmt_16_10e a).
Proof.
  unfold agree_within. induction a as [|v a IH]; simpl; constructor.
  - apply fmt_16_10e_close.
  - exact IH.
Qed.

(** The file has the rows and columns of the table printed. *)
Lemma column_printed (j : nat) (M : table) (a : array) :
  column j M = Some a → column j (printed M) = Some (map fmt_16_10e a).
Proof.
  unfold column, printed. revert a.
  induction M as [|r M IH]; intros a; simpl.
  - intros [= <-]. reflexivity.
  - rewrite list_lookup_fmap.
    destruct (r !! j) as [v|]; simpl; [|discriminate].
    destruct (mapM (λ r : array, r !! j) M) as [c|]; simpl; [|discriminate].
    intros [= <-]. rewrite (IH c eq_refl). reflexivity.
Qed.

Lemma has_shape_printed n m (M : table) :
  has_shape n m M → has_shape n m (printed M).
Proof.
  unfold has_shape, printed. intros [Hn Hall]. split.
  - rewrite length_map. exact Hn.
  - apply Forall_fmap. eapply Forall_impl; [exact Hall|].
    intros r Hr. simpl. rewrite length_map. exact Hr.
Qed.

Lemma written_column_intro (j : nat) (M : table) (a : array) :
  column j M = Some a → written_column j M a.
Proof.
  intros H. split; [exact H|]. split; [apply column_printed, H|].
  apply agree_within_fmt.
Qed.

(** *** The log *)

Lemma performed_app w w' evs :
  log w' = log w ++ evs → performed w w' = evs.
Proof. unfold performed. intros ->. by rewrite drop_app_length. Qed.

(** ** Solver invocation *)

(** C1 (as amended). [forward] and [adjoint] launch the mesh generator and
    then the wave-propagation solver exactly once each, whatever their
    exit statuses are: the statuses are dropped, the second binary runs
    after a failure of the first, both methods return normally, and
    nothing is launched a second time. *)
Theorem forward_adjoint_ignore_exit_status w :
  let mesh := Shell "bin/xmeshfem2D" in
  let solver := Shell "bin/xspecfem2D" in
  let null := Some "/dev/null" in
  (let rc1 := (subprocess_call mesh (disk w)).1 in
   let d1 := (subprocess_call mesh (disk w)).2 in
   let rc2 := (subprocess_call solver d1).1 in
   (forward w).1 = Ok tt ∧
   performed w (forward w).2 =
     [Setpar "SIMULATION_TYPE" "1"; Setpar "SAVE_FORWARD" ".true.";
      Open "/dev/null" "w"; Subprocess mesh null rc1;
      Open "/dev/null" "w"; Subprocess solver null rc2]) ∧
  (let d0 := unix_run (ln "traces/adj" "SEM") (unix_run (rm "SEM") (disk w)) in
   let rc1 := (subprocess_call mesh d0).1 in
   let d1 := (subprocess_call mesh d0).2 in
   let rc2 := (subprocess_call solver d1).1 in
   (adjoint w).1 = Ok tt ∧
   performed w (adjoint w).2 =
     [Setpar "SIMULATION_TYPE" "3"; Setpar "SAVE_FORWARD" ".false.";
      Unix (rm "SEM"); Unix (ln "traces/adj" "SEM");
      Open "/dev/null" "w"; Subprocess mesh null rc1;
      Open "/dev/null" "w"; Subprocess solver null rc2]).
Proof.
  intros mesh solver null. split.
  - unfold forward, mpirun, setpar, open, subprocess_call_, effect, bind, ret.
    simpl. fold mesh solver.
    destruct (subprocess_call mesh (disk w)) as [rc1 d1]; simpl.
    destruct (subprocess_call solver d1) as [rc2 d2]; simpl.
    split; [done|]. apply performed_app. simpl.
    by rewrite <- !app_assoc.
  - unfold adjoint, mpirun, setpar, unix, open, subprocess_call_, effect,
      bind, ret.
    simpl. fold mesh solver.
    destruct (subprocess_call mesh _) as [rc1 d1]; simpl.
    destruct (subprocess_call solver d1) as [rc2 d2]; simpl.
    split; [done|]. apply performed_app. simpl.
    by rewrite <- !app_assoc.
Qed.

(** ** Combining kernels *)

(** C2. [combine(path)] makes one call, of the kernel binary of the
    workspace with exactly two arguments, the number of entries that
    [unix.ls] finds under [path] and [path] itself; it writes no table of
    its own, the files are what that binary left. *)
Theorem combine_calls_binary_with_count_and_path w path :
  let program := getpath w +:+ "/" +:+ "bin/xsmooth_sem" in
  let argv := program :: [str (length (ls w path)); path] in
  let rc := (subprocess_call (Argv argv) (disk w)).1 in
  let d := (subprocess_call (Argv argv) (disk w)).2 in
  (combine path w).1 = Ok tt ∧
  performed w (combine path w).2 = [Subprocess (Argv argv) None rc] ∧
  disk (combine path w).2 = d.
Proof.
  intros program argv. unfold combine, subprocess_call_, bind, get_world, ret.
  simpl. fold program. fold argv.
  destruct (subprocess_call (Argv argv) (disk w)) as [rc d]; simpl.
  split; [done|]. split; [|done]. by apply performed_app.
Qed.

Lemma disk_after_save file M' e w :
  disk (emit e (set_disk (<[file := M']>) w)) !! file = Some M'.
Proof. simpl. apply lookup_insert_eq. Qed.

(** ** The table codec *)


(** C4. [save] of a kernel from a dictionary that holds only x, z and vs,
    all of one length, when the initial model is a 2-D table of 5 or 6
    columns with as many rows: the table written has five columns, x, z
    and vs from the dictionary, and rho and vp equal, row for row, to the
    rho and vp columns of the initial model. *)
Theorem save_kernel_backfills_rho_vp w filename x z vs ref ioff n :
  let model : pydict := <["x" := [x]]> (<["z" := [z]]> (<["vs" := [vs]]> ∅)) in
  length x = n → length z = n → length vs = n →
  disk w !! MODEL_INIT w = Some ref → is_2d ref = true → length ref = n →
  (table_ncol ref = 5 ∧ ioff = 0 ∨ table_ncol ref = 6 ∧ ioff = 1) →
  ∃ M' rho vp,
    column (ioff + 2) ref = Some rho ∧ column (ioff + 3) ref = Some vp ∧
    save filename model "kernel" w
    = (Ok tt, emit (Savetxt filename "%16.10e")
                   (set_disk (<[filename := printed M']>) w)) ∧
    has_shape n 5 M' ∧
    column 0 M' = Some x ∧ column 1 M' = Some z ∧
    column 2 M' = Some rho ∧ column 3 M' = Some vp ∧
    column 4 M' = Some vs.
Proof.
  intros model Lx Lz Lvs Href H2 Hrows Hcol.
  assert (model !! "x" = Some [x] ∧ model !! "z" = Some [z] ∧
          model !! "vs" = Some [vs] ∧ model !! "rho" = None ∧
          model !! "vp" = None) as (Hx & Hz & Hvs & Nrho & Nvp).
  { unfold model. repeat split; by simplify_map_eq. }
  assert (save_nrow model w = (Ok n, w)) as Hn.
  { apply save_nrow_spec; [apply insert_non_empty|].
    intros k v. unfold model.
    rewrite !lookup_insert. repeat case_decide; intros [= <-]; eauto. }
  clearbody model.
  destruct (is_2d_shape _ H2) as (Hs & _ & _).
  assert (ioff + 4 < table_ncol ref) as Hlt
    by (destruct Hcol as [[-> ->]|[-> ->]]; lia).
  destruct (column_is_Some _ _ (ioff + 2) _ Hs) as (rho & Hrho & Lrho); [lia|].
  destruct (column_is_Some _ _ (ioff + 3) _ Hs) as (vp & Hvp & Lvp); [lia|].
  rewrite Hrows in Lrho, Lvp.
  pose proof (loadbyproc_2d w _ ref ioff "rho" 2 rho Href H2 Hcol eq_refl Hrho)
    as Brho.
  pose proof (loadbyproc_2d w _ ref ioff "vp" 3 vp Href H2 Hcol eq_refl Hvp)
    as Bvp.
  destruct (save_spec w filename model "kernel" 0 5 n x z rho vp vs
              (or_intror (conj eq_refl (conj eq_refl eq_refl))) Hn
              (or_introl (ex_intro _ [] Hx)) (or_introl (ex_intro _ [] Hz))
              (or_intror (conj Nrho Brho)) (or_intror (conj Nvp Bvp))
              (or_introl (ex_intro _ [] Hvs)) Lx Lz Lrho Lvp Lvs)
    as (M' & Hsave & Hshape & (Cx & Cz & Crho & Cvp & Cvs) & _).
  exists M', rho, vp.
  exact (conj Hrho (conj Hvp (conj Hsave (conj Hshape
           (conj Cx (conj Cz (conj Crho (conj Cvp Cvs)))))))).
Qed.

Lemma has_shape_is_2d n m (rows : table) :
  has_shape n m rows → 2 ≤ n → 2 ≤ m →
  is_2d rows = true ∧ table_ncol rows = m.
Proof.
  intros [Hn Hall] Hn2 Hm2.
  assert (table_ncol rows = m) as Hm.
  { destruct rows as [|r rows]; [simpl in Hn; lia|].
    inversion Hall; subst. reflexivity. }
  split; [|exact Hm]. unfold is_2d.
  rewrite !andb_true_iff, !Nat.leb_le. rewrite Hm, Hn.
  split; [split; [|exact Hn2] | exact Hm2].
  unfold rectangular. apply forallb_forall. intros r Hr.
  apply Nat.eqb_eq. rewrite Hm.
  rewrite Forall_forall in Hall. apply Hall. by apply list_elem_of_In.
Qed.


(** ** Smoothing and clipping *)

(** [smooth] with a zero span stops after [load]. *)
Lemma smooth_stops_on_zero_span w path tag span :
  (span == 0)%Q →
  smooth path tag span w
  = (match (load (path +:+ "/" +:+ tag) w).1 with
     | Ok parts => Ok (Some parts)
     | Raise e => Raise e
     end, w).
Proof.
  intros Hspan. apply Qeq_bool_iff in Hspan.
  unfold smooth, bind at 1.
  pose proof (read_only_load (path +:+ "/" +:+ tag) w) as Hw.
  destruct (load (path +:+ "/" +:+ tag) w) as [[parts|e] w'];
    cbn [snd fst] in *; subst w'; [|reflexivity].
  rewrite Hspan. reflexivity.
Qed.

(** C8. [smooth] with a zero span returns what [load] returns, the
    dictionary or its exception; it performs no operation at all, and the
    world, files included, is left as it was. *)
Theorem smooth_zero_span_noop w path tag span :
  (span == 0)%Q →
  (smooth path tag span w).1
  = match (load (path +:+ "/" +:+ tag) w).1 with
    | Ok parts => Ok (Some parts)
    | Raise e => Raise e
    end ∧
  performed w (smooth path tag span w).2 = [] ∧
  (smooth path tag span w).2 = w.
Proof.
  intros Hspan. rewrite (smooth_stops_on_zero_span _ _ _ _ Hspan).
  split; [reflexivity|]. split; [|reflexivity].
  apply performed_app. cbn [snd]. symmetry. apply app_nil_r.
Qed.

(** C5. [smooth] with a non-zero span on a table of [nodeCount] rows
    hands [meshsmooth] the same resolution for both axes,
    round(sqrt(nodeCount × xExtent / zExtent)), and writes what
    [meshsmooth] returns for that grid. *)
Theorem smooth_grid_same_for_both_axes w path tag span rows ioff :
  let file := path +:+ "/" +:+ tag in
  disk w !! file = Some rows → is_2d rows = true →
  (table_ncol rows = 5 ∧ ioff = 0 ∨ table_ncol rows = 6 ∧ ioff = 1) →
  ¬ (span == 0)%Q →
  (∀ x z v s nx nz, length (meshsmooth x z v s nx nz) = length v) →
  ∃ x z vs M',
    (column ioff rows = Some x ∧ column (ioff + 1) rows = Some z ∧
     column (ioff + 4) rows = Some vs) ∧
    let r := grid_resolution_spec (length rows) (extent x) (extent z) in
    smooth_grid x z w = (Ok (r, r), w) ∧
    (smooth path tag span w).1 = Ok None ∧
    disk (smooth path tag span w).2 !! file = Some (printed M') ∧
    column 5 M' = Some (meshsmooth x z vs span r r).
Proof.
  intros file Hf H2 Hcol Hspan Hms.
  destruct (is_2d_shape _ H2) as (_ & Hn & _).
  destruct (load_2d w file rows ioff Hf H2 Hcol)
    as (x & z & rho & vp & vs & (Cx & Cz & Crho & Cvp & Cvs)
        & (Lx & Lz & _) & _).
  destruct (smooth_run w path tag span rows ioff Hf H2 Hcol Hspan Hms)
    as (x' & z' & rho' & vp' & vs' & M' & (Cx' & Cz' & _ & _ & Cvs') & Hrun
        & _ & _ & _ & _ & _ & _ & H5).
  rewrite Cx in Cx'. rewrite Cz in Cz'. rewrite Cvs in Cvs'.
  injection Cx' as <-. injection Cz' as <-. injection Cvs' as <-.
  exists x, z, vs, M'. split; [exact (conj Cx (conj Cz Cvs))|].
  rewrite <- Lx. split.
  - apply smooth_grid_spec.
    + exact (length_nonempty _ _ Lx Hn).
    + exact (length_nonempty _ _ Lz Hn).
  - fold file in Hrun. rewrite Hrun. clear Hrun.
    split; [reflexivity|]. split; [apply disk_after_save | exact H5].
Qed.

(** C6 (as amended). [clip] with [0 <= thresh < 1] clamps every value of
    the tracked field into [[thresh × min, thresh × max]], the minimum and
    maximum being those of the field as loaded, and keeps the values
    already inside; with minimum −10, maximum 10 and threshold 0.5 the
    interval is [[−5, 5]]. *)
Theorem clip_clamps_for_nonnegative_thresh w path tag thresh rows ioff :
  let file := path +:+ "/" +:+ tag in
  disk w !! file = Some rows → is_2d rows = true →
  (table_ncol rows = 5 ∧ ioff = 0 ∨ table_ncol rows = 6 ∧ ioff = 1) →
  (0 <= thresh)%Q → (thresh < 1)%Q →
  ∃ vs minval maxval M' vs',
    column (ioff + 4) rows = Some vs ∧
    (np_min vs w = (Ok minval, w) ∧ np_max vs w = (Ok maxval, w)) ∧
    (clip path tag thresh w).1 = Ok None ∧
    disk (clip path tag thresh w).2 !! file = Some (printed M') ∧
    column 5 M' = Some vs' ∧
    clamped_into (thresh * minval) (thresh * maxval) vs vs' ∧
    (thresh == 1 # 2 → minval == -10 → maxval == 10 →
     clamped_into (-5) 5 vs vs')%Q.
Proof.
  intros file Hf H2 Hcol Hth0 Hth1.
  destruct (clip_run w path tag thresh rows ioff Hf H2 Hcol Hth1)
    as (x & z & rho & vp & vs & minval & maxval & M'
        & (_ & _ & _ & _ & Cvs) & [Emin Emax]
        & Hrun & _ & _ & _ & _ & _ & _ & H5).
  exists vs, minval, maxval, M',
    (np_clip vs (thresh * minval) (thresh * maxval)).
  split; [exact Cvs|]. split; [exact (conj Emin Emax)|].
  fold file in Hrun. rewrite Hrun. clear Hrun.
  split; [reflexivity|]. split; [apply disk_after_save|].
  split; [exact H5|].
  assert (thresh * minval <= thresh * maxval)%Q as Hle.
  { pose proof (np_min_le_max _ _ _ _ Emin Emax). nra. }
  pose proof (np_clip_clamped _ _ vs Hle) as Hclamped.
  split; [exact Hclamped|]. intros Ht Hmn Hmx.
  assert (thresh * minval == -5)%Q as Hlo by (rewrite Ht, Hmn; reflexivity).
  assert (thresh * maxval == 5)%Q as Hhi by (rewrite Ht, Hmx; reflexivity).
  eapply Forall2_impl; [exact Hclamped|]. cbv beta.
  intros v v' [[Hv1 Hv2] Hv3]. rewrite Hlo in Hv1. rewrite Hhi in Hv2.
  split; [exact (conj Hv1 Hv2)|]. intros [Hv4 Hv5]. apply Hv3.
  rewrite Hlo, Hhi. exact (conj Hv4 Hv5).
Qed.

(** [clip] with a threshold of one or more returns what [load] returns and
    leaves the world as it was. *)
Lemma clip_high_thresh_noop w path tag thresh :
  (1 <= thresh)%Q →
  clip path tag thresh w
  = (match (load (path +:+ "/" +:+ tag) w).1 with
     | Ok parts => Ok (Some parts)
     | Raise e => Raise e
     end, w).
Proof.
  intros Hth. apply Qle_bool_iff in Hth.
  unfold clip, bind at 1.
  pose proof (read_only_load (path +:+ "/" +:+ tag) w) as Hw.
  destruct (load (path +:+ "/" +:+ tag) w) as [[parts|e] w'];
    cbn [snd fst] in *; subst w'; [|reflexivity].
  rewrite Hth. reflexivity.
Qed.

(** C10 (as amended). The tracked parameters are exactly vs, and on a
    2-D table of 5 or 6 columns the table that [smooth] (non-zero span) or
    [clip] (threshold below one) hands to [np.savetxt] holds the x, z, rho
    and vp columns of the input unchanged; the file written holds these
    values as ['%16.10e'] prints them, rounded to eleven significant
    digits, each within the relative tolerance 5e-11 of the value loaded.
    With a zero span or a threshold of one or more nothing is written at
    all. *)
Theorem smooth_clip_touch_only_vs w path tag rows ioff :
  let file := path +:+ "/" +:+ tag in
  disk w !! file = Some rows → is_2d rows = true →
  (table_ncol rows = 5 ∧ ioff = 0 ∨ table_ncol rows = 6 ∧ ioff = 1) →
  parameters = ["vs"] ∧
  ∃ x z rho vp,
    (column ioff rows = Some x ∧ column (ioff + 1) rows = Some z ∧
     column (ioff + 2) rows = Some rho ∧ column (ioff + 3) rows = Some vp) ∧
    (∀ span,
       ¬ (span == 0)%Q →
       (∀ x z v s nx nz, length (meshsmooth x z v s nx nz) = length v) →
       ∃ M', (smooth path tag span w).1 = Ok None ∧
             disk (smooth path tag span w).2 !! file = Some (printed M') ∧
             written_column 1 M' x ∧ written_column 2 M' z ∧
             written_column 3 M' rho ∧ written_column 4 M' vp) ∧
    (∀ thresh,
       (thresh < 1)%Q →
       ∃ M', (clip path tag thresh w).1 = Ok None ∧
             disk (clip path tag thresh w).2 !! file = Some (printed M') ∧
             written_column 1 M' x ∧ written_column 2 M' z ∧
             written_column 3 M' rho ∧ written_column 4 M' vp) ∧
    (∀ span, (span == 0)%Q → (smooth path tag span w).2 = w) ∧
    (∀ thresh, (1 <= thresh)%Q → (clip path tag thresh w).2 = w).
Proof.
  intros file Hf H2 Hcol. split; [reflexivity|].
  destruct (load_2d w file rows ioff Hf H2 Hcol)
    as (x & z & rho & vp & vs & (Cx & Cz & Crho & Cvp & Cvs) & _ & _).
  exists x, z, rho, vp.
  split; [exact (conj Cx (conj Cz (conj Crho Cvp)))|].
  split; [|split; [|split]].
  - intros span Hspan Hms.
    destruct (smooth_run w path tag span rows ioff Hf H2 Hcol Hspan Hms)
      as (x' & z' & rho' & vp' & vs' & M' & (Cx' & Cz' & Crho' & Cvp' & _)
          & Hrun & _ & _ & H1 & H2' & H3 & H4 & _).
    rewrite Cx in Cx'. rewrite Cz in Cz'. rewrite Crho in Crho'.
    rewrite Cvp in Cvp'.
    injection Cx' as <-. injection Cz' as <-. injection Crho' as <-.
    injection Cvp' as <-.
    exists M'. fold file in Hrun. rewrite Hrun. clear Hrun.
    split; [reflexivity|]. split; [apply disk_after_save|].
    exact (conj (written_column_intro _ _ _ H1)
            (conj (written_column_intro _ _ _ H2')
               (conj (written_column_intro _ _ _ H3)
                  (written_column_intro _ _ _ H4)))).
  - intros thresh Hth.
    destruct (clip_run w path tag thresh rows ioff Hf H2 Hcol Hth)
      as (x' & z' & rho' & vp' & vs' & mn & mx & M'
          & (Cx' & Cz' & Crho' & Cvp' & _) & _ & Hrun
          & _ & _ & H1 & H2' & H3 & H4 & _).
    rewrite Cx in Cx'. rewrite Cz in Cz'. rewrite Crho in Crho'.
    rewrite Cvp in Cvp'.
    injection Cx' as <-. injection Cz' as <-. injection Crho' as <-.
    injection Cvp' as <-.
    exists M'. fold file in Hrun. rewrite Hrun. clear Hrun.
    split; [reflexivity|]. split; [apply disk_after_save|].
    exact (conj (written_column_intro _ _ _ H1)
            (conj (written_column_intro _ _ _ H2')
               (conj (written_column_intro _ _ _ H3)
                  (written_column_intro _ _ _ H4)))).
  - intros span Hspan. rewrite (smooth_stops_on_zero_span _ _ _ _ Hspan).
    reflexivity.
  - intros thresh Hth. rewrite (clip_high_thresh_noop _ _ _ _ Hth).
    reflexivity.
Qed.

(** ** File transfer *)

(** C9. [export_model] copies the model file of the workspace to the given
    destination exactly when the worker identity is 0; for any other
    identity it does nothing and the world, files included, stays as it
    was. *)
Theorem export_model_only_on_node_zero w path :
  let src := join (getpath w) "DATA/model_velocity.dat_input" in
  (export_model path w).1 = Ok tt ∧
  (Unix (cp src path) ∈ performed w (export_model path w).2
   ↔ getnode w = 0%Z) ∧
  (getnode w = 0%Z →
   performed w (export_model path w).2 = [Unix (cp src path)] ∧
   disk (export_model path w).2 = unix_run (cp src path) (disk w)) ∧
  (getnode w ≠ 0%Z → export_model path w = (Ok tt, w)).
Proof.
  intros src. unfold export_model, bind, get_world. simpl. fold src.
  destruct (Z.eqb_spec (getnode w) 0) as [Hz|Hnz].
  - unfold unix, effect. simpl.
    assert (performed w (emit (Unix (cp src path))
              (set_disk (unix_run (cp src path)) w))
            = [Unix (cp src path)]) as Hp by by apply performed_app.
    rewrite Hp. split; [done|]. split; [|split; [done|done]].
    split; [done|]. intros _. apply list_elem_of_here.
  - unfold ret. simpl. unfold performed. rewrite drop_all.
    split; [done|]. split; [|split; [done|done]].
    split; [|done]. intros Hin. by apply elem_of_nil in Hin.
Qed.

(** * Further properties of the class *)

(** ** [save]: failures and atomicity *)

Lemma read_only_cases {A} (m : py A) w :
  read_only m →
  (∃ e, m w = (Raise e, w)) ∨ (∃ a, m w = (Ok a, w)).
Proof.
  intros Hm. specialize (Hm w).
  destruct (m w) as [[a|e] w']; cbn [snd] in Hm; subst w'; eauto.
Qed.

Lemma read_only_dict_get (model : pydict) key : read_only (dict_get model key).
Proof. intros w. unfold dict_get. by destruct (model !! key). Qed.

Lemma read_only_setcol rows j a : read_only (setcol rows j a).
Proof. intros w. unfold setcol. by repeat case_match. Qed.

Lemma read_only_loadbyproc filename key : read_only (loadbyproc filename key).
Proof.
  unfold loadbyproc.
  apply read_only_bind; [apply read_only_np_loadtxt | intros M].
  apply read_only_bind; [apply read_only_getitem | intros nrow].
  apply read_only_bind; [apply read_only_getitem | intros ncol].
  apply read_only_bind; [apply read_only_column_offset | intros ioff].
  repeat case_decide;
    try (apply read_only_bind; [apply read_only_getcol | intros c]);
    apply read_only_ret.
Qed.

Lemma read_only_save_nrow (model : pydict) : read_only (save_nrow model).
Proof.
  unfold save_nrow.
  apply read_only_bind; [|intros key].
  { intros w. unfold pop. by destruct (last (keys model)). }
  apply read_only_bind; [apply read_only_dict_get | intros v].
  apply read_only_bind; [apply read_only_getitem | intros a].
  apply read_only_ret.
Qed.

Lemma read_only_save_column (model : pydict) ioff M item :
  read_only (save_column model ioff M item).
Proof.
  destruct item as [icol key]. unfold save_column. case_decide.
  - apply read_only_bind; [apply read_only_dict_get | intros v].
    apply read_only_bind; [apply read_only_getitem | intros a].
    apply read_only_setcol.
  - apply read_only_bind; [by intros w | intros w'].
    apply read_only_bind; [apply read_only_loadbyproc | intros [c|]].
    + apply read_only_setcol.
    + apply read_only_raise.
Qed.

(** The array that [save] builds before writing it. *)
Lemma read_only_save_array (model : pydict) type :
  read_only
    ('(ioff, M) <-
       (if decide (type = "model") then
          nrow <- save_nrow model ;; ret (1, np_zeros nrow 6)
        else if decide (type = "kernel") then
          nrow <- save_nrow model ;; ret (0, np_zeros nrow 5)
        else raise ValueError) ;;
     for_each (enumerate ["x"; "z"; "rho"; "vp"; "vs"])
       (save_column model ioff) M).
Proof.
  apply read_only_bind; [|intros [ioff M]].
  - repeat case_decide;
      try (apply read_only_bind; [apply read_only_save_nrow | intros nrow]);
      first [apply read_only_ret | apply read_only_raise].
  - apply read_only_for_each. intros M' item. apply read_only_save_column.
Qed.

Lemma save_builds_then_writes w filename (model : pydict) type :
  save filename model type w
  = bind ('(ioff, M) <-
            (if decide (type = "model") then
               nrow <- save_nrow model ;; ret (1, np_zeros nrow 6)
             else if decide (type = "kernel") then
               nrow <- save_nrow model ;; ret (0, np_zeros nrow 5)
             else raise ValueError) ;;
          for_each (enumerate ["x"; "z"; "rho"; "vp"; "vs"])
            (save_column model ioff) M)
         (λ M, np_savetxt filename M "%16.10e") w.
Proof.
  unfold save. repeat case_decide; unfold bind;
    try (destruct (save_nrow model w) as [[n|e] w1]); reflexivity.
Qed.

(** X1. [save] either raises and leaves the world untouched, or returns
    after writing exactly one file, the one named: every other file is as
    before and the only effect added is that [np.savetxt]. *)
Theorem save_all_or_nothing w filename (model : pydict) type :
  (∃ e, save filename model type w = (Raise e, w)) ∨
  (∃ M', save filename model type w
         = (Ok tt, emit (Savetxt filename "%16.10e")
                        (set_disk (<[filename := M']>) w)) ∧
         (∀ other, other ≠ filename →
            disk (save filename model type w).2 !! other = disk w !! other) ∧
         performed w (save filename model type w).2
         = [Savetxt filename "%16.10e"]).
Proof.
  rewrite save_builds_then_writes.
  destruct (read_only_cases _ w (read_only_save_array model type))
    as [[e He]|[M' HM']].
  - left. exists e. rewrite (bind_Raise _ _ _ _ _ He). reflexivity.
  - right. exists (printed M'). rewrite (bind_Ok _ _ _ _ _ HM'). clear HM'.
    split; [reflexivity|]. cbn [snd np_savetxt effect]. split.
    + intros other Hne. simpl. apply lookup_insert_ne. congruence.
    + apply performed_app. reflexivity.
Qed.

(** X2. A kind other than "model" and "kernel" makes [save] raise
    [ValueError] before anything is read or written. *)
Theorem save_rejects_unknown_kind w filename (model : pydict) type :
  type ≠ "model" → type ≠ "kernel" →
  save filename model type w = (Raise ValueError, w).
Proof.
  intros Hm Hk. unfold save.
  rewrite (decide_False (P := type = "model")) by exact Hm.
  rewrite (decide_False (P := type = "kernel")) by exact Hk.
  reflexivity.
Qed.

(** X3. An empty dictionary has no key to take the row count from: [save]
    of either kind raises [IndexError] and writes nothing. *)
Theorem save_empty_dictionary_raises w filename type :
  type = "model" ∨ type = "kernel" →
  save filename (∅ : pydict) type w = (Raise IndexError, w).
Proof.
  intros Hty.
  assert (save_nrow (∅ : pydict) w = (Raise IndexError, w)) as Hn.
  { unfold save_nrow, keys. rewrite map_to_list_empty. reflexivity. }
  unfold save.
  destruct Hty as [-> | ->]; simpl;
    rewrite (bind_Raise _ _ _ _ _ (bind_Raise _ _ _ _ _ Hn)); reflexivity.
Qed.

(** ** [load] and [loadbyproc] *)

(** Both readers start alike: either they raise the same exception, or the
    file is read as a 2-D table of 5 or 6 columns. *)
Lemma load_prefix_cases w f :
  (∃ e, load f w = (Raise e, w) ∧
        ∀ key, loadbyproc f key w = (Raise e, w)) ∨
  (∃ rows ioff,
     disk w !! f = Some rows ∧ is_2d rows = true ∧
     (table_ncol rows = 5 ∧ ioff = 0 ∨ table_ncol rows = 6 ∧ ioff = 1)).
Proof.
  destruct (disk w !! f) as [rows|] eqn:Hf.
  - destruct (rectangular rows) eqn:Hr.
    + destruct rows as [|r1 [|r2 rows]].
      * left. exists IndexError.
        unfold load, loadbyproc, np_loadtxt, bind, get_world.
        rewrite Hf. split; [reflexivity | intros key; reflexivity].
      * left. exists IndexError.
        unfold load, loadbyproc, np_loadtxt, bind, get_world.
        rewrite Hf, Hr.
        destruct r1 as [|v [|v' r1]];
          (split; [reflexivity | intros key; reflexivity]).
      * destruct (Nat.eqb (length r1) 1) eqn:H1.
        { left. exists IndexError.
          unfold load, loadbyproc, np_loadtxt, bind, get_world.
          rewrite Hf, Hr. unfold ret at 1. unfold ret at 1.
          unfold squeeze, table_ncol. rewrite H1.
          split; [reflexivity | intros key; reflexivity]. }
        destruct (Nat.eqb (length r1) 5) eqn:H5.
        { right. exists (r1 :: r2 :: rows), 0.
          apply Nat.eqb_eq in H5.
          split; [reflexivity|]. split; [|left; split; [exact H5|reflexivity]].
          unfold is_2d. rewrite Hr. simpl. rewrite H5. reflexivity. }
        destruct (Nat.eqb (length r1) 6) eqn:H6.
        { right. exists (r1 :: r2 :: rows), 1.
          apply Nat.eqb_eq in H6.
          split; [reflexivity|]. split; [|right; split; [exact H6|reflexivity]].
          unfold is_2d. rewrite Hr. simpl. rewrite H6. reflexivity. }
        left. exists (Exception "Bad SPECFEM2D model or kernel.").
        unfold load, loadbyproc, np_loadtxt, bind, get_world.
        rewrite Hf, Hr. unfold ret at 1. unfold ret at 1.
        unfold squeeze, table_ncol. rewrite H1.
        unfold shape, getitem, table_ncol, column_offset. simpl.
        rewrite H5, H6. split; [reflexivity | intros key; reflexivity].
    + left. exists ValueError.
      unfold load, loadbyproc, np_loadtxt, bind, get_world.
      rewrite Hf, Hr. split; [reflexivity | intros key; reflexivity].
  - left. exists (IOError f).
    unfold load, loadbyproc, np_loadtxt, bind, get_world.
    rewrite Hf. split; [reflexivity | intros key; reflexivity].
Qed.

(** X4. [load] succeeds exactly on the files that [np.loadtxt] reads as a
    2-D array (at least two rows) of 5 or 6 columns; the dictionary then
    holds the five fields, each with one value per row. *)
Theorem load_succeeds_iff_2d_with_5_or_6_columns w f :
  ((∃ parts, load f w = (Ok parts, w)) ↔
   (∃ rows, disk w !! f = Some rows ∧ is_2d rows = true ∧
            (table_ncol rows = 5 ∨ table_ncol rows = 6))) ∧
  (∀ parts, load f w = (Ok parts, w) →
     ∃ rows x z rho vp vs,
       disk w !! f = Some rows ∧ parts = fields_of x z rho vp vs ∧
       length x = length rows ∧ length z = length rows ∧
       length rho = length rows ∧ length vp = length rows ∧
       length vs = length rows).
Proof.
  split; [split|].
  - intros [parts Hload].
    destruct (load_prefix_cases w f) as [(e & He & _)|(rows & ioff & Hf & H2 & Hc)].
    + rewrite He in Hload. discriminate Hload.
    + exists rows. split; [exact Hf|]. split; [exact H2|].
      destruct Hc as [[H _]|[H _]]; [left | right]; exact H.
  - intros (rows & Hf & H2 & Hc).
    assert (∃ ioff, table_ncol rows = 5 ∧ ioff = 0 ∨
                    table_ncol rows = 6 ∧ ioff = 1) as [ioff Hc'].
    { destruct Hc as [H|H]; [exists 0; left | exists 1; right];
        (split; [exact H | reflexivity]). }
    destruct (load_2d w f rows ioff Hf H2 Hc')
      as (x & z & rho & vp & vs & _ & _ & Hload).
    eexists. exact Hload.
  - intros parts Hload.
    destruct (load_prefix_cases w f) as [(e & He & _)|(rows & ioff & Hf & H2 & Hc)].
    + rewrite He in Hload. discriminate Hload.
    + destruct (load_2d w f rows ioff Hf H2 Hc)
        as (x & z & rho & vp & vs & _ & (Lx & Lz & Lrho & Lvp & Lvs) & Hload').
      rewrite Hload' in Hload. injection Hload as <-.
      exists rows, x, z, rho, vp, vs.
      exact (conj Hf (conj eq_refl (conj Lx (conj Lz (conj Lrho
               (conj Lvp Lvs)))))).
Qed.

(** X5. [loadbyproc] agrees with [load]: for each of the five keys it
    returns the array that [load] stores under that key, and when [load]
    raises, [loadbyproc] raises the same exception, whatever the key. *)
Theorem loadbyproc_agrees_with_load w f key :
  (∀ parts i, load f w = (Ok parts, w) → field_index key = Some i →
     ∃ a, parts !! key = Some [a] ∧
          loadbyproc f key w = (Ok (Some a), w)) ∧
  (∀ e, load f w = (Raise e, w) → loadbyproc f key w = (Raise e, w)).
Proof.
  destruct (load_prefix_cases w f)
    as [(e & He & Hby)|(rows & ioff & Hf & H2 & Hc)].
  - split.
    + intros parts i Hload _. rewrite He in Hload. discriminate Hload.
    + intros e' Hload. rewrite He in Hload. injection Hload as <-.
      apply Hby.
  - destruct (load_2d w f rows ioff Hf H2 Hc)
      as (x & z & rho & vp & vs & (Cx & Cz & Crho & Cvp & Cvs) & _ & Hload').
    split.
    + intros parts i Hload Hi. rewrite Hload' in Hload.
      injection Hload as <-. clear Hload'.
      destruct (fields_of_lookup x z rho vp vs) as (Gx & Gz & Grho & Gvp & Gvs).
      unfold field_index in Hi.
      repeat case_decide; try discriminate Hi; injection Hi as <-; subst key.
      * exists x. split; [exact Gx|].
        apply (loadbyproc_2d w f rows ioff "x" 0 x Hf H2 Hc eq_refl).
        rewrite Nat.add_0_r. exact Cx.
      * exists z. split; [exact Gz|].
        exact (loadbyproc_2d w f rows ioff "z" 1 z Hf H2 Hc eq_refl Cz).
      * exists rho. split; [exact Grho|].
        exact (loadbyproc_2d w f rows ioff "rho" 2 rho Hf H2 Hc eq_refl Crho).
      * exists vp. split; [exact Gvp|].
        exact (loadbyproc_2d w f rows ioff "vp" 3 vp Hf H2 Hc eq_refl Cvp).
      * exists vs. split; [exact Gvs|].
        exact (loadbyproc_2d w f rows ioff "vs" 4 vs Hf H2 Hc eq_refl Cvs).
    + intros e Hload. rewrite Hload' in Hload. discriminate Hload.
Qed.

(** X6. For a key that is none of x, z, rho, vp, vs, [loadbyproc] on a
    loadable file raises nothing: it returns Python's [None]. *)
Theorem loadbyproc_unknown_key_returns_None w f key parts :
  load f w = (Ok parts, w) → field_index key = None →
  loadbyproc f key w = (Ok None, w).
Proof.
  intros Hload Hkey.
  destruct (load_prefix_cases w f)
    as [(e & He & _)|(rows & ioff & Hf & H2 & Hc)].
  - rewrite He in Hload. discriminate Hload.
  - clear Hload.
    unfold loadbyproc. rewrite (bind_Ok _ _ _ _ _ (np_loadtxt_2d _ _ _ Hf H2)).
    unfold shape. change (getitem [?a; ?b] 0) with (@ret nat a).
    change (getitem [?a; ?b] 1) with (@ret nat b).
    unfold bind at 1. unfold ret at 1. unfold bind at 1. unfold ret at 1.
    assert (column_offset (table_ncol rows) w = (Ok ioff, w)) as Hoff
      by (destruct Hc as [[-> ->]|[-> ->]]; reflexivity).
    rewrite (bind_Ok _ _ _ _ _ Hoff).
    unfold field_index in Hkey.
    repeat case_decide; try discriminate Hkey. reflexivity.
Qed.

(** X7. [load] and [loadbyproc] only read: whatever they return or raise,
    the files and the log are as before. *)
Theorem load_and_loadbyproc_change_nothing w f key :
  (load f w).2 = w ∧ (loadbyproc f key w).2 = w.
Proof.
  split; [apply read_only_load | apply read_only_loadbyproc].
Qed.

(** ** [save]: where the columns come from *)

Lemma field_index_lt key i : field_index key = Some i → i < 5.
Proof.
  unfold field_index. repeat case_decide; intros [= <-]; lia.
Qed.



Lemma fill_source_total w (model : pydict) ref ioffr key i n :
  disk w !! MODEL_INIT w = Some ref → is_2d ref = true → length ref = n →
  (table_ncol ref = 5 ∧ ioffr = 0 ∨ table_ncol ref = 6 ∧ ioffr = 1) →
  (∀ k v, model !! k = Some v → ∃ a v', v = a :: v' ∧ length a = n) →
  field_index key = Some i →
  ∃ a, expected_column model ref ioffr key i = Some a ∧
       fill_source w model key a ∧ length a = n.
Proof.
  intros Href H2 Hrows Hcol Hvals Hi.
  pose proof (field_index_lt _ _ Hi) as Hlt.
  unfold expected_column, fill_source.
  destruct (model !! key) as [v|] eqn:Hk.
  - destruct (Hvals _ _ Hk) as (a & v' & -> & Hlen).
    exists a. split; [reflexivity|]. split; [left; eexists; reflexivity|].
    exact Hlen.
  - destruct (is_2d_shape _ H2) as (Hs & _ & _).
    destruct (column_is_Some _ _ (ioffr + i) _ Hs) as (c & Hc & Lc).
    { destruct Hcol as [[-> ->]|[-> ->]]; lia. }
    exists c. split; [exact Hc|]. split; [|lia].
    right. split; [reflexivity|].
    exact (loadbyproc_2d w _ ref ioffr key i c Href H2 Hcol Hi Hc).
Qed.

(** X8. [save] of either kind fills each of the five columns from the
    dictionary when it has the key and from the initial model when it does
    not, the coordinates x and z included; the identifier column of a model
    is zero. *)
Theorem save_takes_missing_columns_from_initial_model
    w filename (model : pydict) type ioff ncol ref ioffr n :
  (type = "model" ∧ ioff = 1 ∧ ncol = 6 ∨
   type = "kernel" ∧ ioff = 0 ∧ ncol = 5) →
  model ≠ ∅ →
  (∀ k v, model !! k = Some v → ∃ a v', v = a :: v' ∧ length a = n) →
  disk w !! MODEL_INIT w = Some ref → is_2d ref = true → length ref = n →
  (table_ncol ref = 5 ∧ ioffr = 0 ∨ table_ncol ref = 6 ∧ ioffr = 1) →
  ∃ M',
    save filename model type w
    = (Ok tt, emit (Savetxt filename "%16.10e")
                   (set_disk (<[filename := printed M']>) w)) ∧
    has_shape n ncol M' ∧
    (∀ key i, field_index key = Some i →
       column (i + ioff) M' = expected_column model ref ioffr key i) ∧
    (ioff = 1 → column 0 M' = Some (replicate n 0%Q)).
Proof.
  intros Hty Hne Hvals Href H2 Hrows Hcol.
  pose proof (save_nrow_spec _ _ w Hne Hvals) as Hn.
  destruct (fill_source_total w model ref ioffr "x" 0 n Href H2 Hrows Hcol
              Hvals eq_refl) as (x & Ex & Sx & Lx).
  destruct (fill_source_total w model ref ioffr "z" 1 n Href H2 Hrows Hcol
              Hvals eq_refl) as (z & Ez & Sz & Lz).
  destruct (fill_source_total w model ref ioffr "rho" 2 n Href H2 Hrows Hcol
              Hvals eq_refl) as (rho & Erho & Srho & Lrho).
  destruct (fill_source_total w model ref ioffr "vp" 3 n Href H2 Hrows Hcol
              Hvals eq_refl) as (vp & Evp & Svp & Lvp).
  destruct (fill_source_total w model ref ioffr "vs" 4 n Href H2 Hrows Hcol
              Hvals eq_refl) as (vs & Evs & Svs & Lvs).
  destruct (save_spec w filename model type ioff ncol n x z rho vp vs
              Hty Hn Sx Sz Srho Svp Svs Lx Lz Lrho Lvp Lvs)
    as (M' & Hsave & Hshape & (Cx & Cz & Crho & Cvp & Cvs) & C0).
  exists M'. split; [exact Hsave|]. split; [exact Hshape|].
  split; [|exact C0].
  clear Hsave Sx Sz Srho Svp Svs.
  intros key i Hi. unfold field_index in Hi.
  repeat case_decide; try discriminate Hi; injection Hi as <-; subst key.
  - rewrite Ex. exact Cx.
  - rewrite Ez, (Nat.add_comm 1 ioff). exact Cz.
  - rewrite Erho, (Nat.add_comm 2 ioff). exact Crho.
  - rewrite Evp, (Nat.add_comm 3 ioff). exact Cvp.
  - rewrite Evs, (Nat.add_comm 4 ioff). exact Cvs.
Qed.

(** X9. A dictionary that holds all five keys is saved from its own arrays
    alone: [save] succeeds in every world, whether or not an initial model
    exists. *)
Theorem save_complete_dictionary_needs_no_initial_model
    w filename (model : pydict) type ioff ncol n x z rho vp vs :
  (type = "model" ∧ ioff = 1 ∧ ncol = 6 ∨
   type = "kernel" ∧ ioff = 0 ∧ ncol = 5) →
  model !! "x" = Some [x] → model !! "z" = Some [z] →
  model !! "rho" = Some [rho] → model !! "vp" = Some [vp] →
  model !! "vs" = Some [vs] →
  (∀ k v, model !! k = Some v → ∃ a v', v = a :: v' ∧ length a = n) →
  ∃ M',
    save filename model type w
    = (Ok tt, emit (Savetxt filename "%16.10e")
                   (set_disk (<[filename := printed M']>) w)) ∧
    has_shape n ncol M' ∧
    column ioff M' = Some x ∧ column (ioff + 1) M' = Some z ∧
    column (ioff + 2) M' = Some rho ∧ column (ioff + 3) M' = Some vp ∧
    column (ioff + 4) M' = Some vs.
Proof.
  intros Hty Hx Hz Hrho Hvp Hvs Hvals.
  assert (model ≠ ∅) as Hne.
  { intros ->. rewrite lookup_empty in Hx. discriminate Hx. }
  pose proof (save_nrow_spec _ _ w Hne Hvals) as Hn.
  assert (∀ key a, model !! key = Some [a] → length a = n) as Hlen.
  { intros key a Hk. destruct (Hvals _ _ Hk) as (a' & v' & [= <- <-] & Ha).
    exact Ha. }
  destruct (save_spec w filename model type ioff ncol n x z rho vp vs
              Hty Hn
              (or_introl (ex_intro _ [] Hx)) (or_introl (ex_intro _ [] Hz))
              (or_introl (ex_intro _ [] Hrho)) (or_introl (ex_intro _ [] Hvp))
              (or_introl (ex_intro _ [] Hvs))
              (Hlen _ _ Hx) (Hlen _ _ Hz) (Hlen _ _ Hrho) (Hlen _ _ Hvp)
              (Hlen _ _ Hvs))
    as (M' & Hsave & Hshape & Hcols & _).
  exists M'. exact (conj Hsave (conj Hshape Hcols)).
Qed.






(** ** Loading and saving again *)

Lemma column_lookup j (rows : table) c i r :
  column j rows = Some c → rows !! i = Some r → c !! i = r !! j.
Proof.
  intros Hc Hr. apply mapM_Some in Hc.
  destruct (Forall2_lookup_l _ _ _ _ _ Hc Hr) as (y & Hy & Hj).
  rewrite Hy, Hj. reflexivity.
Qed.

(** Two tables of one shape with the same columns are the same table. *)
Lemma table_ext n m (A B : table) :
  has_shape n m A → has_shape n m B →
  (∀ j, j < m → column j A = column j B) → A = B.
Proof.
  intros [HnA HA] [HnB HB] Hcols. apply list_eq. intros i.
  destruct (A !! i) as [a|] eqn:Ha.
  - assert (i < length B) as Hi.
    { apply lookup_lt_Some in Ha. lia. }
    destruct (lookup_lt_is_Some_2 B i Hi) as [b Hb]. rewrite Hb. f_equal.
    pose proof (proj1 (Forall_lookup _ _) HA _ _ Ha) as La.
    pose proof (proj1 (Forall_lookup _ _) HB _ _ Hb) as Lb.
    cbv beta in La, Lb.
    apply list_eq. intros j.
    destruct (decide (j < m)) as [Hj|Hj].
    + destruct (column_is_Some n m j A (conj HnA HA) Hj) as (c & Hc & _).
      pose proof Hc as Hc'. rewrite (Hcols j Hj) in Hc'.
      rewrite <- (column_lookup _ _ _ _ _ Hc Ha).
      rewrite <- (column_lookup _ _ _ _ _ Hc' Hb). reflexivity.
    + rewrite !lookup_ge_None_2 by lia. reflexivity.
  - apply lookup_ge_None in Ha. symmetry. apply lookup_ge_None. lia.
Qed.

Lemma has_shape_zero_first_column n m rows :
  has_shape n m rows → has_shape n m (zero_first_column rows).
Proof.
  intros [Hn Hall]. unfold zero_first_column. split.
  - rewrite length_map. exact Hn.
  - apply Forall_forall. intros r Hr.
    apply list_elem_of_fmap in Hr as (r' & -> & Hr').
    rewrite length_insert.
    exact (proj1 (Forall_forall _ _) Hall _ Hr').
Qed.

Lemma column_zero_first_column_0 n m rows :
  has_shape n m rows → 0 < m →
  column 0 (zero_first_column rows) = Some (replicate n 0%Q).
Proof.
  intros [Hn Hall] Hm. subst n. unfold column, zero_first_column.
  apply mapM_Some. induction Hall as [|r rows Hr Hall IH]; simpl.
  - constructor.
  - constructor; [|exact IH]. apply list_lookup_insert_eq. lia.
Qed.

Lemma column_zero_first_column_S j rows :
  column (S j) (zero_first_column rows) = column (S j) rows.
Proof.
  unfold column, zero_first_column.
  induction rows as [|r rows IH]; [reflexivity|].
  simpl. rewrite list_lookup_insert_ne by lia.
  simpl in IH. rewrite IH. reflexivity.
Qed.

(** X12. Loading a 2-D table and saving the dictionary with the matching
    kind hands [np.savetxt] the loaded table again when it has 5 columns
    (kind "kernel"); with 6 columns (kind "model") the table handed over
    has its first column replaced by zeros: the identifiers are not kept.
    The file holds that table as ['%16.10e'] prints it. *)
Theorem save_after_load_rewrites_table w f f' rows :
  disk w !! f = Some rows → is_2d rows = true →
  (table_ncol rows = 5 →
   ∃ parts, load f w = (Ok parts, w) ∧
     save f' parts "kernel" w
     = (Ok tt, emit (Savetxt f' "%16.10e")
                    (set_disk (<[f' := printed rows]>) w))) ∧
  (table_ncol rows = 6 →
   ∃ parts, load f w = (Ok parts, w) ∧
     save f' parts "model" w
     = (Ok tt, emit (Savetxt f' "%16.10e")
                    (set_disk (<[f' := printed (zero_first_column rows)]>) w))).
Proof.
  intros Hf H2.
  destruct (is_2d_shape _ H2) as (Hs & Hn & _).
  split; intros Hncol.
  - destruct (load_2d w f rows 0 Hf H2 (or_introl (conj Hncol eq_refl)))
      as (x & z & rho & vp & vs & (Cx & Cz & Crho & Cvp & Cvs)
          & (Lx & Lz & Lrho & Lvp & Lvs) & Hload).
    destruct (fields_of_lookup x z rho vp vs) as (Gx & Gz & Grho & Gvp & Gvs).
    pose proof (fields_of_values x z rho vp vs _ Lx Lz Lrho Lvp Lvs) as Hvals.
    assert (fields_of x z rho vp vs ≠ ∅) as Hne by apply insert_non_empty.
    pose proof (save_nrow_spec _ _ w Hne Hvals) as Hnrow.
    exists (fields_of x z rho vp vs). split; [exact Hload|]. clear Hload.
    set (parts := fields_of x z rho vp vs) in *. clearbody parts.
    destruct (save_spec w f' parts "kernel" 0 5 (length rows) x z rho vp vs
                (or_intror (conj eq_refl (conj eq_refl eq_refl))) Hnrow
                (or_introl (ex_intro _ [] Gx)) (or_introl (ex_intro _ [] Gz))
                (or_introl (ex_intro _ [] Grho)) (or_introl (ex_intro _ [] Gvp))
                (or_introl (ex_intro _ [] Gvs)) Lx Lz Lrho Lvp Lvs)
      as (M' & Hsave & Hshape & (Dx & Dz & Drho & Dvp & Dvs) & _).
    rewrite Hsave. clear Hsave.
    assert (M' = rows) as ->; [|reflexivity].
    rewrite Hncol in Hs. apply (table_ext _ _ _ _ Hshape Hs).
    intros j Hj.
    destruct j as [|[|[|[|[|j]]]]]; [| | | | |lia]; cbn [Nat.add] in *; congruence.
  - destruct (load_2d w f rows 1 Hf H2 (or_intror (conj Hncol eq_refl)))
      as (x & z & rho & vp & vs & (Cx & Cz & Crho & Cvp & Cvs)
          & (Lx & Lz & Lrho & Lvp & Lvs) & Hload).
    destruct (fields_of_lookup x z rho vp vs) as (Gx & Gz & Grho & Gvp & Gvs).
    pose proof (fields_of_values x z rho vp vs _ Lx Lz Lrho Lvp Lvs) as Hvals.
    assert (fields_of x z rho vp vs ≠ ∅) as Hne by apply insert_non_empty.
    pose proof (save_nrow_spec _ _ w Hne Hvals) as Hnrow.
    exists (fields_of x z rho vp vs). split; [exact Hload|]. clear Hload.
    set (parts := fields_of x z rho vp vs) in *. clearbody parts.
    destruct (save_spec w f' parts "model" 1 6 (length rows) x z rho vp vs
                (or_introl (conj eq_refl (conj eq_refl eq_refl))) Hnrow
                (or_introl (ex_intro _ [] Gx)) (or_introl (ex_intro _ [] Gz))
                (or_introl (ex_intro _ [] Grho)) (or_introl (ex_intro _ [] Gvp))
                (or_introl (ex_intro _ [] Gvs)) Lx Lz Lrho Lvp Lvs)
      as (M' & Hsave & Hshape & (Dx & Dz & Drho & Dvp & Dvs) & D0).
    rewrite Hsave. clear Hsave.
    assert (M' = zero_first_column rows) as ->; [|reflexivity].
    rewrite Hncol in Hs.
    apply (table_ext _ _ _ _ Hshape (has_shape_zero_first_column _ _ _ Hs)).
    intros j Hj.
    destruct j as [|j].
    + rewrite (D0 eq_refl).
      symmetry. apply (column_zero_first_column_0 _ 6 _ Hs). lia.
    + rewrite column_zero_first_column_S.
      destruct j as [|[|[|[|[|j]]]]]; [| | | | |lia];
        cbn [Nat.add] in *; congruence.
Qed.

(** ** More on [smooth] and [clip] *)

(** X13. [clip] with a threshold of one or more returns what [load]
    returns, the dictionary or its exception; it performs no operation and
    leaves the world, files included, as it was. *)
Theorem clip_thresh_at_least_one_noop w path tag thresh :
  (1 <= thresh)%Q →
  (clip path tag thresh w).1
  = match (load (path +:+ "/" +:+ tag) w).1 with
    | Ok parts => Ok (Some parts)
    | Raise e => Raise e
    end ∧
  performed w (clip path tag thresh w).2 = [] ∧
  (clip path tag thresh w).2 = w.
Proof.
  intros Hth. rewrite (clip_high_thresh_noop _ _ _ _ Hth).
  split; [reflexivity|]. split; [|reflexivity].
  apply performed_app. cbn [snd]. symmetry. apply app_nil_r.
Qed.

(** X14. When [load] raises, [smooth] and [clip] raise the same exception
    and do nothing else, whatever the span or threshold; in particular a
    missing file gives the [IOError] of [np.loadtxt]. *)
Theorem smooth_clip_propagate_load_failure w path tag span thresh :
  let file := path +:+ "/" +:+ tag in
  (∀ e, load file w = (Raise e, w) →
     smooth path tag span w = (Raise e, w) ∧
     clip path tag thresh w = (Raise e, w)) ∧
  (disk w !! file = None →
     smooth path tag span w = (Raise (IOError file), w) ∧
     clip path tag thresh w = (Raise (IOError file), w)).
Proof.
  intros file.
  assert (∀ e, load file w = (Raise e, w) →
            smooth path tag span w = (Raise e, w) ∧
            clip path tag thresh w = (Raise e, w)) as Hgen.
  { intros e He. unfold smooth, clip. fold file.
    rewrite !(bind_Raise _ _ _ _ _ He). split; reflexivity. }
  split; [exact Hgen|]. intros Hf. apply Hgen.
  unfold load, np_loadtxt, bind, get_world. rewrite Hf. reflexivity.
Qed.

(** X15. A successful [clip] or [smooth] has exactly two effects, in this
    order: the file is renamed to [_noclip] (resp. [_nosmooth]) in the same
    directory, a name that does not depend on [tag], and then the new table
    is written under the old name. *)
Theorem clip_smooth_rename_then_write w path tag rows ioff :
  let file := path +:+ "/" +:+ tag in
  disk w !! file = Some rows → is_2d rows = true →
  (table_ncol rows = 5 ∧ ioff = 0 ∨ table_ncol rows = 6 ∧ ioff = 1) →
  (∀ thresh,
     (thresh < 1)%Q →
     performed w (clip path tag thresh w).2
     = [Unix (mv file (path +:+ "/" +:+ "_noclip"));
        Savetxt file "%16.10e"]) ∧
  (∀ span,
     ¬ (span == 0)%Q →
     (∀ x z v s nx nz, length (meshsmooth x z v s nx nz) = length v) →
     performed w (smooth path tag span w).2
     = [Unix (mv file (path +:+ "/" +:+ "_nosmooth"));
        Savetxt file "%16.10e"]).
Proof.
  intros file Hf H2 Hcol. split.
  - intros thresh Hth.
    destruct (clip_run w path tag thresh rows ioff Hf H2 Hcol Hth)
      as (x & z & rho & vp & vs & mn & mx & M' & _ & _ & Hrun & _).
    fold file in Hrun. rewrite Hrun. clear Hrun.
    apply performed_app. cbn [snd emit set_disk log].
    rewrite <- app_assoc. reflexivity.
  - intros span Hspan Hms.
    destruct (smooth_run w path tag span rows ioff Hf H2 Hcol Hspan Hms)
      as (x & z & rho & vp & vs & M' & _ & Hrun & _).
    fold file in Hrun. rewrite Hrun. clear Hrun.
    apply performed_app. cbn [snd emit set_disk log].
    rewrite <- app_assoc. reflexivity.
Qed.

(** X16. The table [clip] hands to [np.savetxt] has six columns and as
    many rows as the input, also when the input was a kernel of five
    columns, and the file written loads again: it gives x, z, rho and vp
    as loaded before and the clipped vs, every value as ['%16.10e'] prints
    it. *)
Theorem clip_output_is_a_model_table w path tag thresh rows ioff :
  let file := path +:+ "/" +:+ tag in
  disk w !! file = Some rows → is_2d rows = true →
  (table_ncol rows = 5 ∧ ioff = 0 ∨ table_ncol rows = 6 ∧ ioff = 1) →
  (thresh < 1)%Q →
  ∃ x z rho vp vs minval maxval M',
    load file w = (Ok (fields_of x z rho vp vs), w) ∧
    (np_min vs w = (Ok minval, w) ∧ np_max vs w = (Ok maxval, w)) ∧
    disk (clip path tag thresh w).2 !! file = Some (printed M') ∧
    table_ncol M' = 6 ∧ length M' = length rows ∧
    load file (clip path tag thresh w).2
    = (Ok (fields_of (map fmt_16_10e x) (map fmt_16_10e z)
             (map fmt_16_10e rho) (map fmt_16_10e vp)
             (map fmt_16_10e
                (np_clip vs (thresh * minval) (thresh * maxval)))),
       (clip path tag thresh w).2).
Proof.
  intros file Hf H2 Hcol Hth.
  destruct (is_2d_shape _ H2) as (_ & Hn & _).
  destruct (load_2d w file rows ioff Hf H2 Hcol)
    as (x0 & z0 & rho0 & vp0 & vs0 & (Cx0 & Cz0 & Crho0 & Cvp0 & Cvs0) & _
        & Hload).
  destruct (clip_run w path tag thresh rows ioff Hf H2 Hcol Hth)
    as (x & z & rho & vp & vs & mn & mx & M'
        & (Cx & Cz & Crho & Cvp & Cvs) & Hmm & Hrun
        & Hshape & _ & D1 & D2 & D3 & D4 & D5).
  rewrite Cx in Cx0. rewrite Cz in Cz0. rewrite Crho in Crho0.
  rewrite Cvp in Cvp0. rewrite Cvs in Cvs0.
  injection Cx0 as <-. injection Cz0 as <-. injection Crho0 as <-.
  injection Cvp0 as <-. injection Cvs0 as <-.
  exists x, z, rho, vp, vs, mn, mx, M'.
  split; [exact Hload|]. split; [exact Hmm|]. clear Hload.
  fold file in Hrun. rewrite Hrun. clear Hrun. cbn [snd].
  destruct (has_shape_is_2d _ _ _ Hshape Hn) as [_ Hm']; [lia|].
  destruct (has_shape_is_2d _ _ _ (has_shape_printed _ _ _ Hshape) Hn)
    as [H2p Hmp]; [lia|].
  split; [apply disk_after_save|]. split; [exact Hm'|].
  split; [exact (proj1 Hshape)|].
  match goal with
  | |- load file ?w' = _ =>
      destruct (load_2d w' file (printed M') 1 (disk_after_save _ _ _ _) H2p
                  (or_intror (conj Hmp eq_refl)))
        as (x' & z' & rho' & vp' & vs' & (Ex & Ez & Erho & Evp & Evs) & _
            & Hload')
  end.
  cbn [Nat.add] in *.
  rewrite (column_printed _ _ _ D1) in Ex.
  rewrite (column_printed _ _ _ D2) in Ez.
  rewrite (column_printed _ _ _ D3) in Erho.
  rewrite (column_printed _ _ _ D4) in Evp.
  rewrite (column_printed _ _ _ D5) in Evs.
  injection Ex as <-. injection Ez as <-. injection Erho as <-.
  injection Evp as <-. injection Evs as <-.
  exact Hload'.
Qed.

(** ** [check] *)

(** X17. [check] fails with the exception of the base class when that
    raises; otherwise it raises an exception without message exactly when
    NT, DT or F0 is not defined in the parameters. Which paths are defined
    plays no role: a missing SPECFEM2D_BIN or SPECFEM2D_DATA is let
    through. *)
Theorem check_requires_only_time_stepping_parameters w :
  check w
  = match base_check w with
    | (Ok _, w') =>
        if bool_decide ("NT" ∈ PAR ∧ "DT" ∈ PAR ∧ "F0" ∈ PAR)
        then (Ok tt, w')
        else (Raise (Exception ""), w')
    | (Raise e, w') => (Raise e, w')
    end.
Proof.
  unfold check, bind. destruct (base_check w) as [[[]|e] w']; [|reflexivity].
  destruct (decide ("NT" ∉ PAR)) as [HNT|HNT].
  { rewrite bool_decide_eq_false_2; [reflexivity|]. intros (H & _). exact (HNT H). }
  destruct (decide ("DT" ∉ PAR)) as [HDT|HDT].
  { rewrite bool_decide_eq_false_2; [reflexivity|].
    intros (_ & H & _). exact (HDT H). }
  destruct (decide ("F0" ∉ PAR)) as [HF0|HF0].
  { rewrite bool_decide_eq_false_2; [reflexivity|].
    intros (_ & _ & H). exact (HF0 H). }
  rewrite bool_decide_eq_true_2.
  - cbn. repeat case_decide; reflexivity.
  - apply dec_stable in HNT, HDT, HF0. exact (conj HNT (conj HDT HF0)).
Qed.

(** ** [export_kernels] *)

Lemma digits_value_str n : digits_value (str n) = Some n.
Proof.
  unfold digits_value, str.
  pose proof (DecimalNat.Unsigned.of_to n) as Hn.
  destruct (Nat.to_uint n) as [| | | | | | | | | |] eqn:Hd;
    try (unfold NilZero.string_of_uint; rewrite NilEmpty.usu; cbn [fmap option_fmap option_map];
         rewrite Hn; reflexivity).
  cbn in Hn. subst n. reflexivity.
Qed.

Lemma digits_value_zeros k s : digits_value (zeros k +:+ s) = digits_value s.
Proof.
  unfold digits_value. induction k as [|k IH]; [reflexivity|].
  rewrite <- IH.
  replace (zeros (S k) +:+ s)
    with (String (Ascii.Ascii false false false false true true false false)
            (zeros k +:+ s)) by reflexivity.
  cbn [NilEmpty.uint_of_string].
  destruct (NilEmpty.uint_of_string (zeros k +:+ s)) as [d|]; reflexivity.
Qed.

Lemma digits_not_absolute s v :
  digits_value s = Some v → String.prefix "/" s = false.
Proof.
  unfold digits_value. destruct s as [|c s]; [reflexivity|].
  cbn [NilEmpty.uint_of_string].
  destruct (NilEmpty.uint_of_string s) as [d|]; [|intros [=]].
  destruct (uint_of_char c (Some d)) as [d'|] eqn:Hc; [|intros [=]].
  intros _. apply uint_of_char_spec in Hc.
  destruct Hc as [[-> _]|[[-> _]|[[-> _]|[[-> _]|[[-> _]|[[-> _]|[[-> _]|
                 [[-> _]|[[-> _]|[-> _]]]]]]]]]]; reflexivity.
Qed.

Lemma digits_not_negative s v :
  digits_value s = Some v → parse_int s = Some (Z.of_nat v).
Proof.
  intros Hv. unfold parse_int. destruct s as [|c s]; [by rewrite Hv|].
  destruct (decide (String c "" = "-")) as [Hc|Hc]; [|by rewrite Hv].
  injection Hc as ->. unfold digits_value in Hv.
  cbn [NilEmpty.uint_of_string] in Hv.
  destruct (NilEmpty.uint_of_string s); discriminate Hv.
Qed.

Lemma parse_int_minus s :
  parse_int ("-" +:+ s) = (λ n, (- Z.of_nat n)%Z) <$> digits_value s.
Proof. reflexivity. Qed.

(** ['%06d'] can be read back: the padding loses nothing. *)
Lemma parse_format_06d n : parse_int (format_06d n) = Some n.
Proof.
  unfold format_06d. destruct (Z.ltb_spec n 0) as [Hneg|Hpos].
  - cbv zeta. rewrite parse_int_minus.
    rewrite digits_value_zeros, digits_value_str. cbn. f_equal. lia.
  - cbv zeta.
    rewrite (digits_not_negative _ (Z.to_nat n)).
    + f_equal. lia.
    + rewrite digits_value_zeros. apply digits_value_str.
Qed.

Lemma format_06d_not_absolute n : String.prefix "/" (format_06d n) = false.
Proof.
  unfold format_06d. destruct (Z.ltb_spec n 0) as [Hneg|Hpos];
    [reflexivity|].
  cbv zeta. apply (digits_not_absolute _ (Z.to_nat n)).
  rewrite digits_value_zeros. apply digits_value_str.
Qed.

Lemma join_inj_relative a b1 b2 :
  String.prefix "/" b1 = false → String.prefix "/" b2 = false →
  join a b1 = join a b2 → b1 = b2.
Proof.
  intros H1 H2. unfold join. rewrite H1, H2.
  destruct (decide (a = "")); [auto|].
  destruct (String.prefix "/" (String.rev a)); intros H.
  - exact (String.app_inj _ _ _ H).
  - apply String.app_inj in H. exact (String.app_inj _ _ _ H).
Qed.

(** X18. Once the kernels directory is made, [export_kernels] performs one
    copy, of the kernel file of the workspace to a file of that directory
    named by the six-digit worker identity; two workers exporting to the
    same path write to different files exactly when their identities
    differ. When making the directory raises, nothing is copied. *)
Theorem export_kernels_one_file_per_worker path w w1 v v1 :
  mkdir_gpfs (join path "kernels") w = (Ok tt, w1) →
  mkdir_gpfs (join path "kernels") v = (Ok tt, v1) →
  let src (u : world) :=
    join (getpath u) "OUTPUT_FILES/proc000000_rhop_alpha_beta_kernel.dat" in
  let dst (u : world) :=
    join (join path "kernels") (format_06d (getnode u)) in
  (export_kernels path w).1 = Ok tt ∧
  performed w1 (export_kernels path w).2 = [Unix (cp (src w1) (dst w1))] ∧
  disk (export_kernels path w).2
  = unix_run (cp (src w1) (dst w1)) (disk w1) ∧
  (export_kernels path v).1 = Ok tt ∧
  performed v1 (export_kernels path v).2 = [Unix (cp (src v1) (dst v1))] ∧
  (dst w1 = dst v1 ↔ getnode w1 = getnode v1) ∧
  (∀ u u1 e, mkdir_gpfs (join path "kernels") u = (Raise e, u1) →
     export_kernels path u = (Raise e, u1)).
Proof.
  intros Hw Hv src dst.
  assert (∀ u u1, mkdir_gpfs (join path "kernels") u = (Ok tt, u1) →
            export_kernels path u
            = (Ok tt, emit (Unix (cp (src u1) (dst u1)))
                           (set_disk (unix_run (cp (src u1) (dst u1))) u1)))
    as Hrun.
  { intros u u1 Hu. unfold export_kernels.
    rewrite (bind_Ok _ _ _ _ _ Hu). reflexivity. }
  rewrite (Hrun _ _ Hw), (Hrun _ _ Hv). cbn [fst snd].
  split; [reflexivity|]. split; [by apply performed_app|].
  split; [reflexivity|]. split; [reflexivity|].
  split; [by apply performed_app|]. split.
  - split.
    + intros Hd. unfold dst in Hd.
      apply join_inj_relative in Hd; try apply format_06d_not_absolute.
      pose proof (parse_format_06d (getnode w1)) as P1.
      pose proof (parse_format_06d (getnode v1)) as P2.
      rewrite Hd in P1. rewrite P1 in P2. injection P2 as P2. exact P2.
    + intros Hn. unfold dst. rewrite Hn. reflexivity.
  - intros u u1 e Hu. unfold export_kernels.
    rewrite (bind_Raise _ _ _ _ _ Hu). reflexivity.
Qed.

(** ** [import_model] after [export_model] *)

(** X19. If [unix.cp] gives the destination the content of an existing
    source, then a model exported by worker 0 with
    [export_model(path/model)] reaches the workspace of any worker that
    then calls [import_model(path)] on the same files. *)
Theorem import_model_after_export_model w0 w1 path c :
  (∀ src dst d t, d !! src = Some t →
     unix_run (cp src dst) d !! dst = Some t) →
  getnode w0 = 0%Z →
  disk w0 !! join (getpath w0) "DATA/model_velocity.dat_input" = Some c →
  disk w1 = disk (export_model (path +:+ "/" +:+ "model") w0).2 →
  (import_model path w1).1 = Ok tt ∧
  disk (import_model path w1).2
    !! join (getpath w1) "DATA/model_velocity.dat_input" = Some c.
Proof.
  intros Hcp Hnode Hsrc Hshared.
  unfold import_model, bind, get_world, unix, effect. cbn [fst snd].
  split; [reflexivity|]. cbn [disk emit set_disk].
  apply Hcp. rewrite Hshared.
  unfold export_model, bind, get_world. rewrite Hnode.
  cbn [Z.eqb unix effect snd disk emit set_disk].
  apply Hcp. exact Hsrc.
Qed.

End specfem2d.

(** * Concrete runs *)

(** C1, the claim as it stands fails: on an operating system where both
    binaries exit with status 1, [forward] launches them and returns
    normally; no failure reaches the caller. *)
Lemma forward_nonzero_exit_not_reported :
  ¬ (∀ (os : command → files → Z * files) (w : world),
       (∃ cmd out rc,
          Subprocess cmd out rc ∈ performed w (forward os w).2 ∧ rc ≠ 0%Z) →
       ∃ e, (forward os w).1 = Raise e).
Proof.
  intros H. destruct (H os_failing w_worker) as [e He].
  - exists (Shell "bin/xmeshfem2D"), (Some "/dev/null"), 1%Z.
    split; [|discriminate].
    vm_compute. do 3 apply list_elem_of_further. apply list_elem_of_here.
  - vm_compute in He. discriminate He.
Qed.

(** C4 on the example: a kernel of three nodes saved from x, z and vs, the
    initial model having six columns. *)
Lemma save_kernel_backfills_rho_vp_witness :
  ∃ M',
    disk (save "kernels/out"
            (<["x" := [[0; 1; 2]%Q]]> (<["z" := [[0; 0; 5]%Q]]>
               (<["vs" := [[-10; 3; 10]%Q]]> ∅)))
            "kernel" w_worker).2 !! "kernels/out" = Some (printed M') ∧
    column 2 M' = Some [2600; 2700; 2800]%Q ∧
    column 3 M' = Some [5800; 5900; 6000]%Q.
Proof.
  destruct (save_kernel_backfills_rho_vp w_worker "kernels/out"
              [0; 1; 2]%Q [0; 0; 5]%Q [-10; 3; 10]%Q model_table 1 3)
    as (M' & rho & vp & Hrho & Hvp & Hsave & _ & _ & _ & Crho & Cvp & _);
    [reflexivity | reflexivity | reflexivity | reflexivity | reflexivity
    | reflexivity | right; split; reflexivity |].
  exists M'. rewrite Hsave.
  split; [apply lookup_insert_eq|].
  vm_compute in Hrho. vm_compute in Hvp.
  injection Hrho as <-. injection Hvp as <-.
  split; [exact Crho | exact Cvp].
Defined.

(** C5 on the example kernel, with a smoother that returns its field. *)
Lemma smooth_grid_same_for_both_axes_witness :
  ∃ nx nz vs M',
    smooth_grid (λ q, q) (λ q, q) [0; 1; 2]%Q [0; 0; 5]%Q w_worker
    = (Ok (nx, nz), w_worker) ∧ nx = nz ∧
    disk (smooth unix_flat meshsmooth_none (λ q, q) (λ q, q)
            "kernels" "gradient" 1 w_worker).2 !! "kernels/gradient"
    = Some (printed M') ∧
    column 5 M' = Some (meshsmooth_none [0; 1; 2]%Q [0; 0; 5]%Q vs 1 nx nz).
Proof.
  destruct (smooth_grid_same_for_both_axes unix_flat meshsmooth_none
              (λ q, q) (λ q, q) w_worker "kernels" "gradient" 1
              kernel_table 0)
    as (x & z & vs & M' & (Cx & Cz & _) & Hgrid & _ & Hdisk & H5);
    [reflexivity | reflexivity | left; split; reflexivity
    | intros H; discriminate H | intros; reflexivity |].
  vm_compute in Cx. vm_compute in Cz.
  injection Cx as <-. injection Cz as <-.
  eexists _, _, vs, M'.
  split; [exact Hgrid|]. split; [reflexivity|]. split; [exact Hdisk | exact H5].
Defined.

(** C6, the claim as it stands fails for a negative threshold: with
    [thresh = -1] on a field of minimum −10 and maximum 10 the bounds are
    [10] and [−10], no value lies between them, and the value 10 is
    written as −10, below the lower bound. *)
Lemma clip_negative_thresh_counterexample :
  ¬ (∀ (unix_run : unix_cmd → files → files) w path tag thresh rows ioff,
       disk w !! (path +:+ "/" +:+ tag) = Some rows → is_2d rows = true →
       (table_ncol rows = 5 ∧ ioff = 0 ∨ table_ncol rows = 6 ∧ ioff = 1) →
       (thresh < 1)%Q →
       ∃ vs minval maxval M' vs',
         column (ioff + 4) rows = Some vs ∧
         (np_min vs w = (Ok minval, w) ∧ np_max vs w = (Ok maxval, w)) ∧
         (clip unix_run path tag thresh w).1 = Ok None ∧
         disk (clip unix_run path tag thresh w).2 !! (path +:+ "/" +:+ tag)
         = Some (printed M') ∧
         column 5 M' = Some vs' ∧
         clamped_into (thresh * minval) (thresh * maxval) vs vs').
Proof.
  intros H.
  destruct (H unix_flat w_worker "kernels" "gradient" (-1)%Q kernel_table 0)
    as (vs & mn & mx & M' & vs' & Hvs & [Hmn Hmx] & _ & HM' & Hvs' & Hcl);
    [reflexivity | reflexivity | left; split; reflexivity | reflexivity |].
  vm_compute in Hvs. injection Hvs as <-.
  vm_compute in Hmn. injection Hmn as <-.
  vm_compute in Hmx. injection Hmx as <-.
  clear HM' Hvs'.
  inversion Hcl as [|? v' ? ? [[Hlo Hhi] _] _]; subst.
  pose proof (Qle_trans _ _ _ Hlo Hhi) as Hc.
  vm_compute in Hc. apply Hc. reflexivity.
Qed.

(** C6 as amended, on the example kernel with threshold 0.5. *)
Lemma clip_clamps_for_nonnegative_thresh_witness :
  ∃ M' vs',
    disk (clip unix_flat "kernels" "gradient" (1 # 2) w_worker).2
      !! "kernels/gradient" = Some (printed M') ∧
    column 5 M' = Some vs' ∧
    clamped_into (-5) 5 [-10; 3; 10]%Q vs'.
Proof.
  destruct (clip_clamps_for_nonnegative_thresh unix_flat w_worker
              "kernels" "gradient" (1 # 2) kernel_table 0)
    as (vs & mn & mx & M' & vs' & Hvs & [Hmn Hmx] & _ & HM' & Hvs' & _ & Hex);
    [reflexivity | reflexivity | left; split; reflexivity
    | intros H; discriminate H | reflexivity |].
  vm_compute in Hvs. injection Hvs as <-.
  vm_compute in Hmn. injection Hmn as <-.
  vm_compute in Hmx. injection Hmx as <-.
  exists M', vs'. split; [exact HM'|]. split; [exact Hvs'|].
  apply Hex; reflexivity.
Defined.



(** C8 on the example kernel. *)
Lemma smooth_zero_span_noop_witness :
  (smooth unix_flat meshsmooth_none (λ q, q) (λ q, q)
     "kernels" "gradient" 0 w_worker).2 = w_worker.
Proof.
  apply (smooth_zero_span_noop unix_flat meshsmooth_none (λ q, q) (λ q, q)
           w_worker "kernels" "gradient" 0). reflexivity.
Defined.

(** C9 on the examples: worker 3 leaves the world alone, worker 0
    copies. *)
Lemma export_model_only_on_node_zero_witness :
  export_model unix_flat "output/model_init" w_worker = (Ok tt, w_worker) ∧
  performed w_coordinator
    (export_model unix_flat "output/model_init" w_coordinator).2
  = [Unix (cp "/scratch/solver/000000/DATA/model_velocity.dat_input"
             "output/model_init")].
Proof.
  split.
  - apply (export_model_only_on_node_zero unix_flat w_worker
             "output/model_init"). discriminate.
  - apply (export_model_only_on_node_zero unix_flat w_coordinator
             "output/model_init"). reflexivity.
Defined.

(** C10, the claim as it stands fails for the values on disk: an x of
    fifteen significant digits, 0.123456789012345, is written back by
    [clip] as 0.12345678901. *)
Lemma clip_rounds_coordinates_counterexample :
  ¬ (∀ (unix_run : unix_cmd → files → files) w path tag thresh rows ioff x,
       disk w !! (path +:+ "/" +:+ tag) = Some rows → is_2d rows = true →
       (table_ncol rows = 5 ∧ ioff = 0 ∨ table_ncol rows = 6 ∧ ioff = 1) →
       column ioff rows = Some x →
       (thresh < 1)%Q →
       ∃ F x',
         disk (clip unix_run path tag thresh w).2 !! (path +:+ "/" +:+ tag)
         = Some F ∧
         column 1 F = Some x' ∧ Forall2 Qeq x x').
Proof.
  intros H.
  destruct (H unix_flat w_odd "kernels" "gradient" (1 # 2)%Q fine_table 0
              [123456789012345 # 1000000000000000; 1; 2]%Q)
    as (F & x' & HF & Hx' & Heq);
    [reflexivity | reflexivity | left; split; reflexivity | reflexivity
    | reflexivity |].
  vm_compute in HF. injection HF as <-.
  vm_compute in Hx'. injection Hx' as <-.
  inversion Heq as [|? ? ? ? Hv _]; subst.
  vm_compute in Hv. discriminate Hv.
Qed.

(** C10 as amended, on the example kernel, clipped at 0.5. *)
Lemma smooth_clip_touch_only_vs_witness :
  ∃ M',
    disk (clip unix_flat "kernels" "gradient" (1 # 2) w_worker).2
      !! "kernels/gradient" = Some (printed M') ∧
    written_column 1 M' [0; 1; 2]%Q ∧ written_column 2 M' [0; 0; 5]%Q ∧
    written_column 3 M' [1; 1; 1]%Q ∧ written_column 4 M' [2; 2; 2]%Q.
Proof.
  destruct (smooth_clip_touch_only_vs unix_flat meshsmooth_none
              (λ q, q) (λ q, q) w_worker "kernels" "gradient" kernel_table 0)
    as (_ & x & z & rho & vp & (Cx & Cz & Crho & Cvp) & _ & Hclip & _);
    [reflexivity | reflexivity | left; split; reflexivity |].
  destruct (Hclip (1 # 2)) as (M' & _ & HM' & H1 & H2 & H3 & H4);
    [reflexivity|].
  vm_compute in Cx. vm_compute in Cz. vm_compute in Crho. vm_compute in Cvp.
  injection Cx as <-. injection Cz as <-.
  injection Crho as <-. injection Cvp as <-.
  exists M'. exact (conj HM' (conj H1 (conj H2 (conj H3 H4)))).
Defined.



(** * Concrete runs of the further properties *)

(** X1 on the example: saving the kernel dictionary leaves the initial
    model alone. *)
Lemma save_all_or_nothing_witness :
  disk (save "kernels/out" vs_only_dict "kernel" w_worker).2 !! "model_init"
  = Some model_table.
Proof.
  destruct (save_all_or_nothing w_worker "kernels/out" vs_only_dict "kernel")
    as [[e He]|(M' & _ & Hother & _)].
  - vm_compute in He. discriminate He.
  - rewrite Hother; [reflexivity | discriminate].
Defined.

(** X2 on the example: the kind "gll" is refused. *)
Lemma save_rejects_unknown_kind_witness :
  save "kernels/out" vs_only_dict "gll" w_worker = (Raise ValueError, w_worker).
Proof.
  apply (save_rejects_unknown_kind w_worker "kernels/out" vs_only_dict "gll");
    discriminate.
Defined.

(** X3 on the example. *)
Lemma save_empty_dictionary_raises_witness :
  save "kernels/out" (∅ : pydict) "kernel" w_worker
  = (Raise IndexError, w_worker).
Proof.
  apply (save_empty_dictionary_raises w_worker "kernels/out" "kernel").
  right. reflexivity.
Defined.

(** X4 on the examples: the kernel loads, the table of three columns does
    not. *)
Lemma load_succeeds_iff_2d_with_5_or_6_columns_witness :
  (∃ parts, load "kernels/gradient" w_worker = (Ok parts, w_worker)) ∧
  ¬ (∃ parts, load "short" w_worker = (Ok parts, w_worker)).
Proof.
  split.
  - apply (load_succeeds_iff_2d_with_5_or_6_columns w_worker
             "kernels/gradient").
    exists kernel_table. split; [reflexivity|]. split; [reflexivity|].
    left. reflexivity.
  - intros H.
    apply (load_succeeds_iff_2d_with_5_or_6_columns w_worker "short") in H.
    destruct H as (rows & Hf & _ & Hc). vm_compute in Hf.
    injection Hf as <-. destruct Hc as [Hc|Hc]; discriminate Hc.
Defined.

(** X5 on the example: the vs column read by both. *)
Lemma loadbyproc_agrees_with_load_witness :
  ∃ a, loadbyproc "kernels/gradient" "vs" w_worker = (Ok (Some a), w_worker) ∧
       fields_of [0; 1; 2]%Q [0; 0; 5]%Q [1; 1; 1]%Q [2; 2; 2]%Q
                 [-10; 3; 10]%Q !! "vs" = Some [a].
Proof.
  destruct (proj1 (loadbyproc_agrees_with_load w_worker "kernels/gradient"
                     "vs")
              (fields_of [0; 1; 2]%Q [0; 0; 5]%Q [1; 1; 1]%Q [2; 2; 2]%Q
                         [-10; 3; 10]%Q) 4)
    as (a & Ha & Hby); [reflexivity | reflexivity |].
  exists a. split; [exact Hby | exact Ha].
Defined.

(** X6 on the example: the key "Qmu" is not a field. *)
Lemma loadbyproc_unknown_key_returns_None_witness :
  loadbyproc "kernels/gradient" "Qmu" w_worker = (Ok None, w_worker).
Proof.
  apply (loadbyproc_unknown_key_returns_None w_worker "kernels/gradient" "Qmu"
           (fields_of [0; 1; 2]%Q [0; 0; 5]%Q [1; 1; 1]%Q [2; 2; 2]%Q
                      [-10; 3; 10]%Q)); reflexivity.
Defined.

(** X8 on the example: rho comes from the initial model, vs from the
    dictionary. *)
Lemma save_takes_missing_columns_from_initial_model_witness :
  ∃ M',
    disk (save "kernels/out" vs_only_dict "kernel" w_worker).2
      !! "kernels/out" = Some (printed M') ∧
    column 2 M' = Some [2600; 2700; 2800]%Q ∧
    column 4 M' = Some [-10; 3; 10]%Q.
Proof.
  destruct (save_takes_missing_columns_from_initial_model w_worker
              "kernels/out" vs_only_dict "kernel" 0 5 model_table 1 3)
    as (M' & Hsave & _ & Hcols & _).
  - right. repeat split.
  - apply insert_non_empty.
  - intros k v. unfold vs_only_dict. rewrite !lookup_insert.
    repeat case_decide; intros [= <-]; eexists _, _; split; reflexivity.
  - reflexivity.
  - reflexivity.
  - reflexivity.
  - right. split; reflexivity.
  - exists M'. rewrite Hsave. split; [apply lookup_insert_eq|].
    split; [exact (Hcols "rho" 2 eq_refl) | exact (Hcols "vs" 4 eq_refl)].
Defined.

(** X9 on the example: a complete dictionary saved where no initial model
    exists. *)
Lemma save_complete_dictionary_needs_no_initial_model_witness :
  ∃ M',
    save "kernels/out"
      (fields_of [0; 1]%Q [0; 0]%Q [1; 1]%Q [2; 2]%Q [3; 4]%Q) "model"
      w_no_model
    = (Ok tt, emit (Savetxt "kernels/out" "%16.10e")
                   (set_disk (<["kernels/out" := printed M']>) w_no_model)) ∧
    column 5 M' = Some [3; 4]%Q.
Proof.
  destruct (save_complete_dictionary_needs_no_initial_model w_no_model
              "kernels/out"
              (fields_of [0; 1]%Q [0; 0]%Q [1; 1]%Q [2; 2]%Q [3; 4]%Q)
              "model" 1 6 2 [0; 1]%Q [0; 0]%Q [1; 1]%Q [2; 2]%Q [3; 4]%Q)
    as (M' & Hsave & _ & _ & _ & _ & _ & Hvs);
    [left; repeat split | reflexivity | reflexivity | reflexivity
    | reflexivity | reflexivity | |].
  - intros k v. unfold fields_of. rewrite !lookup_insert.
    repeat case_decide; intros [= <-]; eexists _, _; split; reflexivity.
  - exists M'. split; [exact Hsave | exact Hvs].
Defined.



(** X12 on the examples: the kernel is written back as it is, the model
    with its identifiers zeroed, both as ['%16.10e'] prints them. *)
Lemma save_after_load_rewrites_table_witness :
  (∃ parts, load "kernels/gradient" w_worker = (Ok parts, w_worker) ∧
     disk (save "kernels/copy" parts "kernel" w_worker).2 !! "kernels/copy"
     = Some (printed kernel_table)) ∧
  (∃ parts, load "model_init" w_worker = (Ok parts, w_worker) ∧
     disk (save "model_copy" parts "model" w_worker).2 !! "model_copy"
     = Some (printed (zero_first_column model_table))).
Proof.
  split.
  - destruct (proj1 (save_after_load_rewrites_table w_worker
                       "kernels/gradient" "kernels/copy" kernel_table
                       eq_refl eq_refl) eq_refl)
      as (parts & Hload & Hsave).
    exists parts. split; [exact Hload|]. rewrite Hsave.
    apply lookup_insert_eq.
  - destruct (proj2 (save_after_load_rewrites_table w_worker
                       "model_init" "model_copy" model_table
                       eq_refl eq_refl) eq_refl)
      as (parts & Hload & Hsave).
    exists parts. split; [exact Hload|]. rewrite Hsave.
    apply lookup_insert_eq.
Defined.

(** X13 on the example kernel, with the default threshold 1. *)
Lemma clip_thresh_at_least_one_noop_witness :
  (clip unix_flat "kernels" "gradient" 1 w_worker).2 = w_worker.
Proof.
  apply (clip_thresh_at_least_one_noop unix_flat w_worker "kernels"
           "gradient" 1). discriminate.
Defined.

(** X14 on the example: no file "kernels/missing". *)
Lemma smooth_clip_propagate_load_failure_witness :
  clip unix_flat "kernels" "missing" (1 # 2) w_worker
  = (Raise (IOError "kernels/missing"), w_worker).
Proof.
  apply (smooth_clip_propagate_load_failure unix_flat meshsmooth_none
           (λ q, q) (λ q, q) w_worker "kernels" "missing" 1 (1 # 2)).
  reflexivity.
Defined.

(** X15 on the example kernel. *)
Lemma clip_smooth_rename_then_write_witness :
  performed w_worker (clip unix_flat "kernels" "gradient" (1 # 2) w_worker).2
  = [Unix (mv "kernels/gradient" "kernels/_noclip");
     Savetxt "kernels/gradient" "%16.10e"].
Proof.
  apply (clip_smooth_rename_then_write unix_flat meshsmooth_none
           (λ q, q) (λ q, q) w_worker "kernels" "gradient" kernel_table 0);
    [reflexivity | reflexivity | left; split; reflexivity | reflexivity].
Defined.

(** X16 on the example kernel of five columns. *)
Lemma clip_output_is_a_model_table_witness :
  ∃ M',
    disk (clip unix_flat "kernels" "gradient" (1 # 2) w_worker).2
      !! "kernels/gradient" = Some (printed M') ∧
    table_ncol kernel_table = 5 ∧ table_ncol M' = 6.
Proof.
  destruct (clip_output_is_a_model_table unix_flat w_worker "kernels"
              "gradient" (1 # 2) kernel_table 0)
    as (x & z & rho & vp & vs & mn & mx & M' & _ & _ & HM' & Hncol & _);
    [reflexivity | reflexivity | left; split; reflexivity | reflexivity |].
  exists M'. split; [exact HM'|]. split; [reflexivity | exact Hncol].
Defined.

(** X18 on the examples: workers 3 and 0 export to different files. *)
Lemma export_kernels_one_file_per_worker_witness :
  performed w_worker
    (export_kernels unix_flat (λ _, ret tt) "output" w_worker).2
  = [Unix (cp "/scratch/solver/000003/OUTPUT_FILES/proc000000_rhop_alpha_beta_kernel.dat"
             "output/kernels/000003")] ∧
  performed w_coordinator
    (export_kernels unix_flat (λ _, ret tt) "output" w_coordinator).2
  = [Unix (cp "/scratch/solver/000000/OUTPUT_FILES/proc000000_rhop_alpha_beta_kernel.dat"
             "output/kernels/000000")].
Proof.
  destruct (export_kernels_one_file_per_worker unix_flat (λ _, ret tt)
              "output" w_worker w_worker w_coordinator w_coordinator
              eq_refl eq_refl)
    as (_ & Hw & _ & _ & Hv & _).
  split; [exact Hw | exact Hv].
Defined.

(** X19 on the examples, the workspace of worker 0 holding a model. *)
Lemma import_model_after_export_model_witness :
  let w0 := set_disk (<["/scratch/solver/000000/DATA/model_velocity.dat_input"
                         := model_table]>) w_coordinator in
  let w1 := set_disk (λ _, disk (export_model unix_flat "output/model" w0).2)
                     w_worker in
  disk (import_model unix_flat "output" w1).2
    !! "/scratch/solver/000003/DATA/model_velocity.dat_input"
  = Some model_table.
Proof.
  intros w0 w1.
  apply (import_model_after_export_model unix_flat w0 w1 "output" model_table).
  - intros src dst d t Hsrc. unfold unix_flat. rewrite Hsrc.
    apply lookup_insert_eq.
  - reflexivity.
  - reflexivity.
  - reflexivity.
Defined.
